(** * PyHydroQC: event segmentation, matching and confusion counts

    A shallow embedding of the evaluation stage of [arima-explore.py]:
    [determine_events], [determine_detections], [compare_lbl_detns],
    [false_detections], [windowing] and [metrics].

    Conventions of the embedding.
    - A pandas Series or a one-column DataFrame read by position
      ([normal_lbl[i]], [anomDetn[0][i]]) is the list of its values.
    - Python integers are [Z]; positions in a sequence are [nat].
    - A Python exception is a value of [pyexn]; code that can raise
      returns a [result]. *)

From stdpp Require Import gmap list sorting.
From Stdlib Require Import ZArith QArith Lia.

(** ** Python exceptions *)

Inductive pyexn : Set :=
  KeyError | IndexError | ValueError | ZeroDivisionError.

Inductive result (A : Type) : Type :=
  | Ok (a : A)
  | Raise (e : pyexn).
Arguments Ok {A} a.
Arguments Raise {A} e.

#[global] Instance result_ret : MRet result := λ A, Ok.
#[global] Instance result_bind : MBind result :=
  λ A B f m, match m with Ok a => f a | Raise e => Raise e end.

(** [for x in l: st = body(st, x)], stopping at the first exception. *)
Fixpoint for_in {S I : Type} (body : S → I → result S) (st : S) (l : list I)
    : result S :=
  match l with
  | [] => Ok st
  | x :: l' => st' ← body st x; for_in body st' l'
  end.

(** [s[i]] on a column read by position. *)
Definition getitem {A : Type} (s : list A) (i : nat) : result A :=
  match s !! i with
  | Some x => Ok x
  | None => Raise IndexError
  end.

(** [sum(l)]: Python adds from the left, starting at 0. *)
Definition py_sum (l : list Z) : Z := foldl Z.add 0%Z l.

(** [max(l)]: raises [ValueError] on an empty sequence. *)
Definition py_max (l : list Z) : result Z :=
  match l with
  | [] => Raise ValueError
  | x :: l' => Ok (foldl Z.max x l')
  end.

(** [pd.DataFrame(data=data, index=index)]: the data must have one
    row per index entry. *)
Definition DataFrame {A : Type} (data : list A) (index : list Z)
    : result (list A) :=
  if decide (length data = length index) then Ok data else Raise ValueError.

(** ** Segmenter: [determine_events] and [determine_detections] *)

Module Segmenter.

(** Body of the loop [for i in range(1, len(normal_lbl))] of
    [determine_events].  [normal_lbl] holds [True] for a normal point,
    so a point is anomalous when [not(normal_lbl[i])].  The state is
    [(event_count, events)]; [events] has length [i] when iteration [i]
    starts, so [events[i-1] = event_count] overwrites its last entry
    and both reads of [normal_lbl] are in range. *)
Definition events_step (normal_lbl : list bool) (st : Z * list Z) (i : nat)
    : Z * list Z :=
  let '(event_count, events) := st in
  if negb (normal_lbl !!! i) then
    if (normal_lbl !!! (i - 1)%nat : bool) then
      let event_count := (event_count + 1)%Z in
      (event_count, <[(i - 1)%nat := event_count]> events ++ [event_count])
    else (event_count, events ++ [event_count])
  else
    if negb (normal_lbl !!! (i - 1)%nat) then
      (event_count, events ++ [event_count])
    else (event_count, events ++ [0%Z]).

Definition determine_events (normal_lbl : list bool) : list Z :=
  (foldl (events_step normal_lbl) (0%Z, [0%Z])
         (seq 1 (length normal_lbl - 1))).2.

(** Body of the loop of [determine_detections]; here [anomDetn[0][i]]
    is [True] for a detected point. *)
Definition detections_step (anomDetn : list bool) (st : Z * list Z) (i : nat)
    : Z * list Z :=
  let '(det_count, det_events) := st in
  if (anomDetn !!! i : bool) then
    if negb (anomDetn !!! (i - 1)%nat) then
      let det_count := (det_count + 1)%Z in
      (det_count, <[(i - 1)%nat := det_count]> det_events ++ [det_count])
    else (det_count, det_events ++ [det_count])
  else
    if (anomDetn !!! (i - 1)%nat : bool) then
      (det_count, det_events ++ [det_count])
    else (det_count, det_events ++ [0%Z]).

Definition determine_detections (anomDetn : list bool) : list Z :=
  (foldl (detections_step anomDetn) (0%Z, [0%Z])
         (seq 1 (length anomDetn - 1))).2.

(** The same computation by recursion on the flags still to be read.
    [c] is the counter, [cur] the flag of the position whose entry is
    the last one written, [pv] that entry (it may still be overwritten
    by the next iteration). *)
Fixpoint segment_from (c : Z) (cur : bool) (pv : Z) (rest : list bool)
    : list Z :=
  match rest with
  | [] => [pv]
  | nxt :: rest' =>
      if nxt && negb cur
      then (c + 1)%Z :: segment_from (c + 1)%Z nxt (c + 1)%Z rest'
      else pv :: segment_from c nxt (if nxt || cur then c else 0%Z) rest'
  end.

Definition segment (flags : list bool) : list Z :=
  match flags with
  | [] => [0%Z]
  | f0 :: rest => segment_from 0 f0 0 rest
  end.

(** Number of positions [i >= 1] at which a run starts, that is
    [flags[i]] holds and [flags[i-1]] does not: the final counter. *)
Fixpoint run_starts (cur : bool) (rest : list bool) : Z :=
  match rest with
  | [] => 0%Z
  | nxt :: rest' =>
      ((if nxt && negb cur then 1 else 0) + run_starts nxt rest')%Z
  end.

(** The counter when the loop ends. *)
Definition final_count (flags : list bool) : Z :=
  match flags with
  | [] => 0%Z
  | f0 :: rest => run_starts f0 rest
  end.

End Segmenter.


(** ** Matcher: [compare_lbl_detns] *)

Module Matcher.

(** [if not(l[-1] == x): l.append(x)] *)
Definition append_new (l : list Z) (x : Z) : result (list Z) :=
  match last l with
  | None => Raise IndexError
  | Some y => Ok (if decide (y = x) then l else l ++ [x])
  end.

(** [l.pop(0)], keeping the remaining list. *)
Definition pop0 (l : list Z) : result (list Z) :=
  match l with
  | [] => Raise IndexError
  | _ :: l' => Ok l'
  end.

(** Body of [for i in range(0, len(anomDetn))].  The guard reads the
    detection flags [anomDetn], the appended values come from the
    label events [anomLbl] and the detection events [anomDetns]. *)
Definition compare_step (anomLbl : list Z) (anomDetn : list bool)
    (anomDetns : list Z) (st : list Z * list Z) (i : nat)
    : result (list Z * list Z) :=
  let '(detected_anomalies, valid_detections) := st in
  flag ← getitem anomDetn i;
  if (flag : bool) then
    lbl ← getitem anomLbl i;
    if decide (0 ≠ lbl)%Z then
      detected_anomalies ← append_new detected_anomalies lbl;
      det ← getitem anomDetns i;
      valid_detections ← append_new valid_detections det;
      mret (detected_anomalies, valid_detections)
    else mret st
  else mret st.

Definition compare_lbl_detns (anomLbl : list Z) (anomDetn : list bool)
    (anomDetns : list Z) : result (list Z * list Z * list Z) :=
  st ← for_in (compare_step anomLbl anomDetn anomDetns) ([0%Z], [0%Z])
              (seq 0 (length anomDetn));
  detected_anomalies ← pop0 st.1;
  valid_detections ← pop0 st.2;
  mret (anomDetns, detected_anomalies, valid_detections).

(** The loop by recursion on the three columns read in step. *)
Definition match_row (st : list Z * list Z) (flag : bool) (lbl det : Z)
    : list Z * list Z :=
  if flag then
    if decide (0 ≠ lbl)%Z then
      (if decide (last st.1 = Some lbl) then st.1 else st.1 ++ [lbl],
       if decide (last st.2 = Some det) then st.2 else st.2 ++ [det])
    else st
  else st.

Fixpoint match_from (st : list Z * list Z) (flags : list bool)
    (lbls dets : list Z) : list Z * list Z :=
  match flags, lbls, dets with
  | flag :: flags', lbl :: lbls', det :: dets' =>
      match_from (match_row st flag lbl det) flags' lbls' dets'
  | _, _, _ => st
  end.

(** The Matcher as section 4.3 of the specification words it: the
    guard is [detectionEvents[i] != 0], not the detection flag. *)
Definition match_spec (labelEvents detectionEvents : list Z)
    : list Z * list Z :=
  let st := match_from ([0%Z], [0%Z])
              ((λ d, bool_decide (d ≠ 0%Z)) <$> detectionEvents)
              labelEvents detectionEvents in
  (drop 1 st.1, drop 1 st.2).

End Matcher.

(** ** Classifier: [false_detections] *)

Module Classifier.

(** Body of [for i in range(1, max(anomDetns[0]))]; the state is
    [(invalid_detections, det_ind)]. *)
Definition false_step (valid_detections : list Z) (st : list Z * nat) (i : Z)
    : list Z * nat :=
  let '(invalid_detections, det_ind) := st in
  if decide (det_ind < length valid_detections)%nat then
    if decide (Some i = valid_detections !! det_ind)
    then (invalid_detections, S det_ind)
    else (invalid_detections ++ [i], det_ind)
  else st.

Definition false_detections (anomDetns valid_detections : list Z)
    : result (list Z) :=
  m ← py_max anomDetns;
  mret (foldl (false_step valid_detections) ([], 0%nat) (seqZ 1 (m - 1))).1.

(** The Classifier as section 4.4 of the specification words it:
    every identifier of [1 .. max(detectionEvents)] that is not in
    [validDetections], in increasing order. *)
Definition false_alarms_spec (detectionEvents validDetections : list Z)
    : result (list Z) :=
  m ← py_max detectionEvents;
  mret (filter (λ i, i ∉ validDetections) (seqZ 1 m)).

End Classifier.

(** ** Aligner and [windowing] *)

Module Aligner.

(** [anomDetn.reindex(index)]: the detection frame, keyed by its own
    time stamps, is read at every time stamp of [index]; a time stamp
    it does not hold gives a null entry. *)
Definition reindex (anomDetn : gmap Z bool) (index : list Z)
    : list (option bool) :=
  (λ t, anomDetn !! t) <$> index.

(** [anomDetn[anomDetn.isnull()] = True] *)
Definition fill_null (col : list (option bool)) : list bool :=
  default true <$> col.

Definition align (anomDetn : gmap Z bool) (index : list Z) : list bool :=
  fill_null (reindex anomDetn index).

End Aligner.

(** [windowing(srs, normal_lbl, anomDetn)]; [srs] is not read by the
    function.  [normal_lbl] is a Series: rows of time stamp and value.
    The result is [(anomLbl, anomDetn, anomDetns, detected_anomalies,
    invalid_detections)]. *)
Definition windowing (normal_lbl : list (Z * bool)) (anomDetn : gmap Z bool)
    : result (list Z * list bool * list Z * list Z * list Z) :=
  let label_events := Segmenter.determine_events normal_lbl.*2 in
  anomLbl ← DataFrame label_events normal_lbl.*1;
  let anomDetn := Aligner.align anomDetn normal_lbl.*1 in
  let det_events := Segmenter.determine_detections anomDetn in
  anomDetns ← DataFrame det_events normal_lbl.*1;
  '(anomDetns, detected_anomalies, valid_detections) ←
    Matcher.compare_lbl_detns anomLbl anomDetn anomDetns;
  invalid_detections ← Classifier.false_detections anomDetns valid_detections;
  mret (anomLbl, anomDetn, anomDetns, detected_anomalies, invalid_detections).

(** ** Metric roll-up: [metrics] *)

Module Metrics.

(** [s.value_counts()]: how often each value occurs; only values that
    occur are keys. *)
Definition value_count (s : list Z) (v : Z) : Z :=
  Z.of_nat (length (filter (λ x, x = v) s)).

(** [s.value_counts()[v]] for one key. *)
Definition vc_getitem (s : list Z) (v : Z) : result Z :=
  if decide (v ∈ s) then Ok (value_count s v) else Raise KeyError.

(** [s.value_counts()[ids]] for a list of keys. *)
Fixpoint vc_getitems (s : list Z) (ids : list Z) : result (list Z) :=
  match ids with
  | [] => Ok []
  | v :: ids' =>
      n ← vc_getitem s v; ns ← vc_getitems s ids'; mret (n :: ns)
  end.

Record counts : Set := Counts {
  TruePositives : Z;
  FalseNegatives : Z;
  FalsePositives : Z;
  TrueNegatives : Z
}.

(** Lines 191 to 194 of [metrics]: the four confusion counts. *)
Definition confusion_counts (anomDetns : list Z) (anomDetn : list bool)
    (anomLbl detected_anomalies invalid_detections : list Z) : result counts :=
  hit_counts ← vc_getitems anomLbl detected_anomalies;
  let TruePositives := py_sum hit_counts in
  zeros ← vc_getitem anomLbl 0;
  let FalseNegatives :=
    (Z.of_nat (length anomDetn) - zeros - TruePositives)%Z in
  alarm_counts ← vc_getitems anomDetns invalid_detections;
  let FalsePositives := py_sum alarm_counts in
  let TrueNegatives :=
    (Z.of_nat (length anomDetn) - TruePositives - FalseNegatives
     - FalsePositives)%Z in
  mret (Counts TruePositives FalseNegatives FalsePositives TrueNegatives).

(** Floating-point results.  A finite double is idealised as the exact
    rational it approximates (rounding is not modelled); the IEEE
    special values are kept, since NumPy returns them from a division
    by zero instead of raising. *)
Inductive npfloat : Set :=
  | Finite (q : Q)
  | PosInf
  | NegInf
  | NaN.

Definition of_int (z : Z) : npfloat := Finite (inject_Z z).

Definition signed_inf (c : comparison) : npfloat :=
  match c with
  | Lt => NegInf
  | Eq => NaN
  | Gt => PosInf
  end.

Definition np_mul (x y : npfloat) : npfloat :=
  match x, y with
  | NaN, _ | _, NaN => NaN
  | Finite a, Finite b => Finite (a * b)
  | Finite a, PosInf | PosInf, Finite a => signed_inf (Qcompare a 0)
  | Finite a, NegInf | NegInf, Finite a => signed_inf (Qcompare 0 a)
  | PosInf, PosInf | NegInf, NegInf => PosInf
  | PosInf, NegInf | NegInf, PosInf => NegInf
  end.

Definition np_add (x y : npfloat) : npfloat :=
  match x, y with
  | NaN, _ | _, NaN => NaN
  | Finite a, Finite b => Finite (a + b)
  | PosInf, NegInf | NegInf, PosInf => NaN
  | PosInf, _ | _, PosInf => PosInf
  | NegInf, _ | _, NegInf => NegInf
  end.

(** NumPy true division.  A zero divisor is [+0.0] in every use below
    (an integer zero, or a sum of doubles that cancels), so [x / 0] is
    [nan] for [x = 0] and an infinity of the sign of [x] otherwise. *)
Definition np_div (x y : npfloat) : npfloat :=
  match x, y with
  | NaN, _ | _, NaN => NaN
  | Finite a, Finite b =>
      if Qeq_bool b 0 then signed_inf (Qcompare a 0) else Finite (a / b)
  | Finite _, (PosInf | NegInf) => Finite 0
  | PosInf, Finite b => if Qle_bool 0 b then PosInf else NegInf
  | NegInf, Finite b => if Qle_bool 0 b then NegInf else PosInf
  | (PosInf | NegInf), (PosInf | NegInf) => NaN
  end.

Definition is_finite (x : npfloat) : Prop :=
  match x with
  | Finite _ => True
  | _ => False
  end.

(** Python true division of two Python integers. *)
Definition py_div (a b : Z) : result npfloat :=
  if decide (b = 0%Z) then Raise ZeroDivisionError
  else Ok (Finite (inject_Z a / inject_Z b)).

Record report : Set := Report {
  PRC : npfloat;
  PPV : npfloat;
  NPV : npfloat;
  ACC : npfloat;
  RCL : npfloat;
  f1 : npfloat;
  f2 : npfloat
}.

(** [metrics].  [TruePositives] and [FalsePositives] come out of the
    built-in [sum] and are Python integers, so the first division is
    Python's and raises on a zero divisor.  [FalseNegatives] and
    [TrueNegatives] contain the NumPy integer [value_counts()[0]], so
    every later division is NumPy's. *)
Definition metrics (anomDetns : list Z) (anomDetn : list bool)
    (anomLbl detected_anomalies invalid_detections : list Z)
    : result (counts * report) :=
  c ← confusion_counts anomDetns anomDetn anomLbl detected_anomalies
        invalid_detections;
  let TP := TruePositives c in
  let FN := FalseNegatives c in
  let FP := FalsePositives c in
  let TN := TrueNegatives c in
  PRC ← py_div TP (TP + FP);
  let PPV := PRC in
  let NPV := np_div (of_int TN) (of_int (TN + FN)) in
  let ACC :=
    np_div (of_int (TP + TN)) (of_int (Z.of_nat (length anomDetn))) in
  let RCL := np_div (of_int TP) (of_int (TP + FN)) in
  let f1 := np_div (np_mul (Finite 2) (np_mul PRC RCL)) (np_add PRC RCL) in
  let f2 :=
    np_div (np_mul (Finite 5) (of_int TP))
           (np_add (np_add (np_mul (Finite 5) (of_int TP))
                           (np_mul (Finite 4) (of_int FN)))
                   (of_int FP)) in
  mret (c, Report PRC PPV NPV ACC RCL f1 f2).

End Metrics.

(** The script's two calls (lines 261 to 263): [windowing], then
    [metrics] on its results. *)
Definition evaluate (normal_lbl : list (Z * bool)) (anomDetn : gmap Z bool)
    : result (Metrics.counts * Metrics.report) :=
  '(anomLbl, anomDetn, anomDetns, detected_anomalies, invalid_detections) ←
    windowing normal_lbl anomDetn;
  Metrics.metrics anomDetns anomDetn anomLbl detected_anomalies
                  invalid_detections.

(** The confusion counts of the same run, before any ratio is taken. *)
Definition evaluate_counts (normal_lbl : list (Z * bool))
    (anomDetn : gmap Z bool) : result Metrics.counts :=
  '(anomLbl, anomDetn, anomDetns, detected_anomalies, invalid_detections) ←
    windowing normal_lbl anomDetn;
  Metrics.confusion_counts anomDetns anomDetn anomLbl detected_anomalies
                           invalid_detections.

(** A Series of flags on the time stamps [0, 1, 2, ...], and the
    detection frame with the same time stamps. *)
Definition series (values : list bool) : list (Z * bool) :=
  zip (seqZ 0 (Z.of_nat (length values))) values.

Definition frame (values : list bool) : gmap Z bool :=
  list_to_map (series values).

(** ** Order of the identifiers in an event column

    [nz_mono m l]: the non-zero entries of [l] never decrease and none
    is below [m].  [flag_mono m flags l]: the same for the entries of
    [l] at the positions flagged in [flags]. *)

Fixpoint nz_mono (m : Z) (l : list Z) : Prop :=
  match l with
  | [] => True
  | x :: l' =>
      if decide (x = 0%Z) then nz_mono m l' else (m ≤ x)%Z ∧ nz_mono x l'
  end.

Fixpoint flag_mono (m : Z) (flags : list bool) (l : list Z) : Prop :=
  match flags, l with
  | f :: flags', x :: l' =>
      if (f : bool) then (m ≤ x)%Z ∧ flag_mono x flags' l'
      else flag_mono m flags' l'
  | _, _ => True
  end.

(** No entry of [l] is followed directly by an equal entry. *)
Definition no_adjacent_repeat (l : list Z) : Prop :=
  ∀ (i : nat) (x : Z), l !! i = Some x → l !! S i ≠ Some x.

(** * Proofs *)

Section segmenter_loop.
Import Segmenter.

Lemma detections_loop_from (rest pre : list bool) (cur : bool) (c pv : Z)
    (written : list Z) :
  length written = length pre →
  (foldl (detections_step (pre ++ cur :: rest)) (c, written ++ [pv])
         (seq (S (length pre)) (length rest))).2
  = written ++ segment_from c cur pv rest.
Proof.
  revert pre cur c pv written.
  induction rest as [|nxt rest IH]; intros pre cur c pv written Hlen; [done|].
  cbn [length seq foldl segment_from].
  assert (Hnxt : (pre ++ cur :: nxt :: rest) !!! S (length pre) = nxt).
  { rewrite (cons_middle cur), app_assoc.
    apply list_lookup_total_middle. rewrite length_app. simpl. lia. }
  assert (Hcur : (pre ++ cur :: nxt :: rest) !!! length pre = cur).
  { by apply list_lookup_total_middle. }
  assert (Hins : ∀ v : Z, <[length pre := v]> (written ++ [pv]) = written ++ [v]).
  { intros v. rewrite <- Hlen.
    rewrite insert_app_r_alt by lia. by rewrite Nat.sub_diag. }
  unfold detections_step at 2.
  replace (S (length pre) - 1)%nat with (length pre) by lia.
  rewrite Hnxt, Hcur, Hins.
  specialize (IH (pre ++ [cur]) nxt).
  rewrite <- (app_assoc pre [cur]) in IH. simpl in IH.
  rewrite length_app in IH. simpl in IH.
  replace (length pre + 1)%nat with (S (length pre)) in IH by lia.
  destruct nxt, cur; simpl;
    (rewrite IH by (rewrite length_app; simpl; lia));
    by rewrite <- app_assoc.
Qed.

Lemma determine_detections_segment (anomDetn : list bool) :
  determine_detections anomDetn = segment anomDetn.
Proof.
  destruct anomDetn as [|f0 rest]; [done|].
  unfold determine_detections, segment.
  replace (length (f0 :: rest) - 1)%nat with (length rest) by (simpl; lia).
  apply (detections_loop_from rest [] f0 0%Z 0%Z []). done.
Qed.

Lemma events_step_detections (normal_lbl : list bool) st i :
  (i < length normal_lbl)%nat → (0 < i)%nat →
  events_step normal_lbl st i = detections_step (negb <$> normal_lbl) st i.
Proof.
  intros Hi H0. unfold events_step, detections_step. destruct st as [c ev].
  rewrite !(list_lookup_total_fmap negb) by lia.
  by destruct (normal_lbl !!! i), (normal_lbl !!! (i - 1)%nat).
Qed.

Lemma foldl_ext_seq {A} (f g : A → nat → A) (a : A) (l : list nat) :
  (∀ a i, i ∈ l → f a i = g a i) → foldl f a l = foldl g a l.
Proof.
  revert a. induction l as [|i l IH]; intros a Hfg; [done|].
  simpl. rewrite Hfg by left. apply IH. intros b j Hj. apply Hfg. by right.
Qed.

Lemma determine_events_segment (normal_lbl : list bool) :
  determine_events normal_lbl = segment (negb <$> normal_lbl).
Proof.
  rewrite <- determine_detections_segment.
  unfold determine_events, determine_detections. rewrite length_fmap.
  f_equal. apply foldl_ext_seq. intros st i Hi.
  apply elem_of_seq in Hi. apply events_step_detections; lia.
Qed.

End segmenter_loop.

(** ** Properties of the Segmenter *)

Section segmenter_facts.
Import Segmenter.

Lemma segment_from_length c cur pv rest :
  length (segment_from c cur pv rest) = S (length rest).
Proof.
  revert c cur pv. induction rest as [|nxt rest IH]; intros c cur pv; [done|].
  simpl. destruct (nxt && negb cur); simpl; by rewrite IH.
Qed.

Lemma segment_length (flags : list bool) :
  length (segment flags) = (length flags `max` 1)%nat.
Proof.
  destruct flags as [|f0 rest]; [done|].
  simpl. rewrite segment_from_length. lia.
Qed.

(** The entry written for the current position is final unless the
    next flag starts a run. *)
Lemma segment_from_head c cur pv rest :
  segment_from c cur pv rest !! 0%nat =
  Some (match rest with
        | nxt :: _ => if nxt && negb cur then (c + 1)%Z else pv
        | [] => pv
        end).
Proof. destruct rest as [|nxt rest]; [done|]. simpl. by destruct (nxt && negb cur). Qed.

(** Retroactive assignment: an unflagged position right before a
    run start carries the same entry as the run start. *)
Lemma segment_from_before rest c cur pv (i : nat) :
  (cur :: rest) !! i = Some false →
  (cur :: rest) !! S i = Some true →
  segment_from c cur pv rest !! i = segment_from c cur pv rest !! S i.
Proof.
  revert c cur pv i.
  induction rest as [|nxt rest IH]; intros c cur pv i Hi HSi; [done|].
  destruct i as [|i].
  - simpl in Hi, HSi. simplify_eq. simpl.
    by rewrite segment_from_head; destruct rest as [|[] ?].
  - simpl. destruct (nxt && negb cur); simpl; by apply IH.
Qed.

(** An unflagged position that is not right before a run start
    repeats the entry of a flagged predecessor and holds 0 after an
    unflagged one. *)
Lemma segment_from_after rest c cur pv (i : nat) :
  (cur = true → pv = c) →
  (cur :: rest) !! S i = Some false →
  (cur :: rest) !! S (S i) ≠ Some true →
  ((cur :: rest) !! i = Some true →
     segment_from c cur pv rest !! S i = segment_from c cur pv rest !! i) ∧
  ((cur :: rest) !! i = Some false →
     segment_from c cur pv rest !! S i = Some 0%Z).
Proof.
  revert c cur pv i.
  induction rest as [|nxt rest IH]; intros c cur pv i Hpv HSi HSSi; [done|].
  destruct i as [|i].
  - simpl in HSi, HSSi. simplify_eq. simpl.
    rewrite segment_from_head.
    destruct rest as [|[] rest]; simpl in *; try done;
      (split; intros [= ->]; [by rewrite Hpv|done]).
  - simpl. destruct (nxt && negb cur) eqn:Hrise; simpl.
    + apply IH; [done|done|done].
    + apply IH; [|done|done]. by intros ->.
Qed.

Lemma segment_from_all_false c n :
  segment_from c false 0 (replicate n false) = replicate (S n) 0%Z.
Proof. induction n as [|n IH]; [done|]. simpl. by rewrite IH. Qed.

Lemma segment_from_all_true c n :
  segment_from c true c (replicate n true) = replicate (S n) c.
Proof. induction n as [|n IH]; [done|]. simpl. by rewrite IH. Qed.

Lemma segment_replicate (b : bool) (n : nat) :
  segment (replicate n b) = replicate (n `max` 1)%nat 0%Z.
Proof.
  destruct n as [|n]; [done|].
  replace (S n `max` 1)%nat with (S n) by lia.
  cbn [replicate segment].
  destruct b; [apply segment_from_all_true|apply segment_from_all_false].
Qed.

End segmenter_facts.

(** ** What the Segmenter writes at an unflagged position *)

Section segmenter_claims.
Import Segmenter.

Lemma segment_unflagged (flags : list bool) (i : nat) :
  flags !! S i = Some false →
  (flags !! S (S i) = Some true →
     segment flags !! S i = segment flags !! S (S i)) ∧
  (flags !! S (S i) ≠ Some true →
     (flags !! i = Some true → segment flags !! S i = segment flags !! i) ∧
     (flags !! i = Some false → segment flags !! S i = Some 0%Z)).
Proof.
  destruct flags as [|f0 rest]; [done|]. intros HSi. unfold segment. split.
  - intros HSSi. by apply segment_from_before.
  - intros HSSi. apply segment_from_after; [by intros _|done|done].
Qed.

Lemma double_negb (flags : list bool) : negb <$> (negb <$> flags) = flags.
Proof.
  rewrite <- list_fmap_compose. rewrite <- (list_fmap_id flags) at 2.
  apply list_fmap_ext. by intros ? [] ?.
Qed.

End segmenter_claims.

(** C1 as stated fails: with flags [F, T, F] position 2 is unflagged
    and is not followed by a run start, yet both routines write the
    run's identifier 1 there, not 0. *)
Lemma segmenter_trailing_entry_nonzero :
  Segmenter.determine_detections [false; true; false] = [1; 1; 1]%Z ∧
  Segmenter.determine_events [true; false; true] = [1; 1; 1]%Z ∧
  ¬ (∀ (flags : list bool) (i : nat),
       (1 ≤ i)%nat → flags !! i = Some false →
       flags !! S i ≠ Some true →
       Segmenter.determine_detections flags !! i = Some 0%Z).
Proof.
  split; [reflexivity|]. split; [reflexivity|].
  intros H. specialize (H [false; true; false] 2%nat).
  discriminate H; [lia|reflexivity|discriminate].
Qed.

(** C8 (as amended).  A sequence whose flags are all equal, all false
    or all true, is segmented into zeros only: the counter moves only
    where an unflagged position is followed by a flagged one, so a run
    that starts at position 0 never receives an identifier.  The
    result has one entry per flag, and one entry for an empty input. *)
Theorem segmenter_constant_flags (n : nat) :
  Segmenter.determine_detections (replicate n false)
    = replicate (n `max` 1)%nat 0%Z ∧
  Segmenter.determine_detections (replicate n true)
    = replicate (n `max` 1)%nat 0%Z ∧
  Segmenter.determine_events (replicate n true)
    = replicate (n `max` 1)%nat 0%Z ∧
  Segmenter.determine_events (replicate n false)
    = replicate (n `max` 1)%nat 0%Z.
Proof.
  rewrite !determine_detections_segment, !determine_events_segment.
  rewrite !fmap_replicate. simpl.
  by rewrite !segment_replicate.
Qed.

(** C8 as stated fails: three flags that are all true give three
    zeros, so no positive identifier sits at positions 1 and 2. *)
Lemma segmenter_all_true_no_identifier :
  Segmenter.determine_detections [true; true; true] = [0; 0; 0]%Z ∧
  Segmenter.determine_events [false; false; false] = [0; 0; 0]%Z ∧
  ¬ (∀ n : nat, ∃ k : Z, (0 < k)%Z ∧
       ∀ i : nat, (1 ≤ i < n)%nat →
         Segmenter.determine_detections (replicate n true) !! i = Some k).
Proof.
  split; [reflexivity|]. split; [reflexivity|].
  intros H. destruct (H 3%nat) as (k & Hk & Hall).
  specialize (Hall 1%nat ltac:(lia)). vm_compute in Hall.
  injection Hall as <-. lia.
Qed.

(** ** Aligner *)

(** C9.  The aligned detection flags have one entry per time stamp of
    the reference index.  The entry is [True] where the detection
    frame has no row for the time stamp and the frame's own flag where
    it has one.  [windowing] hands exactly these flags on. *)
Theorem align_fills_missing_only (anomDetn : gmap Z bool) (index : list Z) :
  length (Aligner.align anomDetn index) = length index ∧
  (∀ (j : nat) (t : Z), index !! j = Some t →
     (anomDetn !! t = None → Aligner.align anomDetn index !! j = Some true) ∧
     (∀ b : bool, anomDetn !! t = Some b →
        Aligner.align anomDetn index !! j = Some b)) ∧
  (∀ (normal_lbl : list (Z * bool)) anomLbl aligned anomDetns detected invalid,
     windowing normal_lbl anomDetn
       = Ok (anomLbl, aligned, anomDetns, detected, invalid) →
     aligned = Aligner.align anomDetn normal_lbl.*1).
Proof.
  unfold Aligner.align, Aligner.fill_null, Aligner.reindex.
  split; [by rewrite !length_fmap|]. split.
  - intros j t Hj. rewrite !list_lookup_fmap, Hj. simpl.
    split; [by intros ->|by intros b ->].
  - intros normal_lbl anomLbl aligned anomDetns detected invalid.
    unfold windowing, DataFrame.
    repeat case_decide; simpl; try done.
    destruct (Matcher.compare_lbl_detns _ _ _) as [[[? ?] ?]|]; simpl; [|done].
    destruct (Classifier.false_detections _ _); simpl; [|done].
    by intros [= <- <- <- <- <-].
Qed.

Lemma align_fills_missing_only_witness :
  Aligner.align {[ 0%Z := false ]} [0; 1]%Z !! 1%nat = Some true ∧
  Aligner.align {[ 0%Z := false ]} [0; 1]%Z !! 0%nat = Some false.
Proof.
  destruct (align_fills_missing_only {[ 0%Z := false ]} [0; 1]%Z)
    as (_ & Hpos & _).
  split.
  - apply (proj1 (Hpos 1%nat 1%Z eq_refl)). reflexivity.
  - apply (proj2 (Hpos 0%nat 0%Z eq_refl) false). reflexivity.
Defined.


(** ** The Matcher's loop, column by column *)

Section matcher_loop.
Import Matcher.

Lemma for_in_fmap {S I J : Type} (f : I → J) (body : S → J → result S)
    (st : S) (l : list I) :
  for_in body st (f <$> l) = for_in (λ s i, body s (f i)) st l.
Proof.
  revert st. induction l as [|x l IH]; intros st; [done|].
  simpl. destruct (body st (f x)); simpl; [apply IH|done].
Qed.

Lemma match_row_nonempty st flag lbl det :
  st.1 ≠ [] → st.2 ≠ [] →
  (match_row st flag lbl det).1 ≠ [] ∧ (match_row st flag lbl det).2 ≠ [].
Proof.
  intros H1 H2. unfold match_row.
  destruct flag; [|done]. case_decide; [|done]. simpl.
  split; case_decide; try done; by intros [_ ?]%app_nil.
Qed.

Lemma append_new_ok (l : list Z) (x : Z) :
  l ≠ [] →
  append_new l x = Ok (if decide (last l = Some x) then l else l ++ [x]).
Proof.
  intros Hl. unfold append_new.
  destruct (last l) as [y|] eqn:Hlast; [|by apply last_None in Hlast].
  repeat case_decide; congruence.
Qed.

Lemma compare_step_head A F D (a : Z) (f : bool) (d : Z) st :
  st.1 ≠ [] → st.2 ≠ [] →
  compare_step (a :: A) (f :: F) (d :: D) st 0 = Ok (match_row st f a d).
Proof.
  intros H1 H2. destruct st as [da vd]. unfold compare_step, match_row.
  simpl in *. destruct f; [|done]. case_decide; [|done].
  rewrite (append_new_ok da) by done. simpl.
  by rewrite (append_new_ok vd) by done.
Qed.

Lemma compare_loop (F : list bool) (A D : list Z) st :
  length A = length F → length D = length F →
  st.1 ≠ [] → st.2 ≠ [] →
  for_in (compare_step A F D) st (seq 0 (length F))
    = Ok (match_from st F A D).
Proof.
  revert A D st. induction F as [|f F IH]; intros A D st HA HD H1 H2.
  - by destruct A, D.
  - destruct A as [|a A], D as [|d D]; try done.
    cbn [length seq for_in match_from].
    rewrite compare_step_head by done. simpl.
    rewrite <- fmap_S_seq, for_in_fmap.
    destruct (match_row_nonempty st f a d H1 H2) as [H1' H2'].
    rewrite <- (IH A D (match_row st f a d)); [done|..];
      simpl in *; by try lia.
Qed.

Lemma match_row_prefix st flag lbl det :
  st.1 `prefix_of` (match_row st flag lbl det).1 ∧
  st.2 `prefix_of` (match_row st flag lbl det).2.
Proof.
  unfold match_row. destruct flag; [|done]. case_decide; [|done]. simpl.
  split; case_decide; try done; by apply prefix_app_r.
Qed.

Lemma match_from_prefix (F : list bool) (A D : list Z) st :
  st.1 `prefix_of` (match_from st F A D).1 ∧
  st.2 `prefix_of` (match_from st F A D).2.
Proof.
  revert A D st. induction F as [|f F IH]; intros A D st; [done|].
  destruct A as [|a A], D as [|d D]; try done. simpl.
  destruct (match_row_prefix st f a d) as [P1 P2].
  destruct (IH A D (match_row st f a d)) as [Q1 Q2].
  split; by etrans.
Qed.

(** With columns of one length the indexed loop never raises. *)
Lemma compare_lbl_detns_ok (A : list Z) (F : list bool) (D : list Z) :
  length A = length F → length D = length F →
  compare_lbl_detns A F D
    = Ok (D, drop 1 (match_from ([0%Z], [0%Z]) F A D).1,
             drop 1 (match_from ([0%Z], [0%Z]) F A D).2).
Proof.
  intros HA HD. unfold compare_lbl_detns.
  rewrite compare_loop by done. simpl.
  destruct (match_from_prefix F A D ([0%Z], [0%Z])) as [[r1 E1] [r2 E2]].
  simpl in E1, E2. by rewrite E1, E2.
Qed.

End matcher_loop.

(** ** What the Matcher collects *)

Section matcher_facts.
Import Matcher.

Lemma match_row_elem_1 st (f : bool) (a d x : Z) :
  x ∈ (match_row st f a d).1 ↔ x ∈ st.1 ∨ (f = true ∧ a ≠ 0%Z ∧ x = a).
Proof.
  unfold match_row. destruct f; [|intuition congruence].
  case_decide; [|intuition congruence]. simpl. case_decide as Hlast.
  - apply last_Some in Hlast as [l' Hl']. rewrite Hl'.
    rewrite elem_of_app, list_elem_of_singleton. intuition congruence.
  - rewrite elem_of_app, list_elem_of_singleton. intuition congruence.
Qed.

Lemma match_row_elem_2 st (f : bool) (a d y : Z) :
  y ∈ (match_row st f a d).2 ↔ y ∈ st.2 ∨ (f = true ∧ a ≠ 0%Z ∧ y = d).
Proof.
  unfold match_row. destruct f; [|intuition congruence].
  case_decide; [|intuition congruence]. simpl. case_decide as Hlast.
  - apply last_Some in Hlast as [l' Hl']. rewrite Hl'.
    rewrite elem_of_app, list_elem_of_singleton. intuition congruence.
  - rewrite elem_of_app, list_elem_of_singleton. intuition congruence.
Qed.

Lemma match_from_elem (F : list bool) (A D : list Z) st :
  length A = length F → length D = length F →
  (∀ x, x ∈ (match_from st F A D).1 ↔
        x ∈ st.1 ∨
        ∃ i, F !! i = Some true ∧ A !! i = Some x ∧ x ≠ 0%Z) ∧
  (∀ y, y ∈ (match_from st F A D).2 ↔
        y ∈ st.2 ∨
        ∃ i a, F !! i = Some true ∧ A !! i = Some a ∧ a ≠ 0%Z ∧
               D !! i = Some y).
Proof.
  revert A D st. induction F as [|f F IH]; intros A D st HA HD.
  - destruct A, D; try done. simpl.
    split; intros z; (split; [by left|]);
      intros [?|(i & Hi)]; [done|by destruct Hi as [? [[=] _]]|done|];
      by destruct Hi as (? & [=] & _).
  - destruct A as [|a A], D as [|d D]; try done. simpl.
    destruct (IH A D (match_row st f a d)) as [IH1 IH2];
      [simpl in *; lia..|].
    split.
    + intros x. rewrite IH1, match_row_elem_1. split.
      * intros [[?|(-> & ? & ->)]|(i & ? & ? & ?)]; [by left|..].
        -- right. by exists 0%nat.
        -- right. by exists (S i).
      * intros [?|([|i] & Hf & Ha & ?)]; [by left; left|..].
        -- simpl in Hf, Ha. simplify_eq. left. by right.
        -- right. by exists i.
    + intros y. rewrite IH2, match_row_elem_2. split.
      * intros [[?|(-> & ? & ->)]|(i & a' & ? & ? & ? & ?)]; [by left|..].
        -- right. by exists 0%nat, a.
        -- right. by exists (S i), a'.
      * intros [?|([|i] & a' & Hf & Ha & ? & Hd)]; [by left; left|..].
        -- simpl in Hf, Ha, Hd. simplify_eq. left. by right.
        -- right. by exists i, a'.
Qed.

Lemma sorted_snoc (l : list Z) (m x : Z) :
  StronglySorted Z.lt l → Forall (λ y, y ≤ m)%Z l → (m ≤ x)%Z →
  last l ≠ Some x → StronglySorted Z.lt (l ++ [x]).
Proof.
  intros Hs Hm Hx Hlast. apply StronglySorted_app.
  split; [|split; [done|repeat constructor]].
  intros y z Hy ->%list_elem_of_singleton.
  destruct (last l) as [w|] eqn:Hw;
    [|apply last_None in Hw; subst l; by apply elem_of_nil in Hy].
  apply last_Some in Hw as [l' ->].
  assert (w ≤ m)%Z as Hwm.
  { rewrite Forall_forall in Hm. apply Hm.
    rewrite elem_of_app, list_elem_of_singleton. by right. }
  assert (w ≠ x) as Hwx by congruence.
  apply elem_of_app in Hy as [Hy| ->%list_elem_of_singleton]; [|lia].
  assert (y < w)%Z; [|lia].
  apply (StronglySorted_app_1_elem_of _ _ _ _ _ Hs Hy).
  by apply list_elem_of_singleton.
Qed.

Lemma Forall_le_snoc (l : list Z) (m x : Z) :
  Forall (λ y, y ≤ m)%Z l → (m ≤ x)%Z → Forall (λ y, y ≤ x)%Z (l ++ [x]).
Proof.
  intros Hm Hx. apply Forall_app. split; [|by repeat constructor].
  eapply Forall_impl; [done|]. simpl. lia.
Qed.

Lemma Forall_le_weaken (l : list Z) (m x : Z) :
  Forall (λ y, y ≤ m)%Z l → (m ≤ x)%Z → Forall (λ y, y ≤ x)%Z l.
Proof. intros Hm Hx. eapply Forall_impl; [done|]. simpl. lia. Qed.

Lemma match_from_sorted (F : list bool) (A D : list Z) st (ml md : Z) :
  StronglySorted Z.lt st.1 → StronglySorted Z.lt st.2 →
  Forall (λ y, y ≤ ml)%Z st.1 → Forall (λ y, y ≤ md)%Z st.2 →
  nz_mono ml A → flag_mono md F D →
  StronglySorted Z.lt (match_from st F A D).1 ∧
  StronglySorted Z.lt (match_from st F A D).2.
Proof.
  revert A D st ml md.
  induction F as [|f F IH]; intros A D st ml md S1 S2 B1 B2 HA HD; [done|].
  destruct A as [|a A], D as [|d D]; try done.
  cbn [match_from]. simpl in HA, HD. unfold match_row.
  destruct f.
  - destruct HD as [Hd HD]. destruct (decide (a = 0%Z)) as [->|Ha0].
    + rewrite decide_False by (by intros ?).
      apply (IH _ _ _ ml d); try done. by apply (Forall_le_weaken _ md).
    + rewrite decide_True by done. destruct HA as [Ha HA].
      apply (IH _ _ _ a d); simpl; try done.
      * case_decide; [done|]. by apply (sorted_snoc _ ml).
      * case_decide; [done|]. by apply (sorted_snoc _ md).
      * case_decide; [by apply (Forall_le_weaken _ ml)|
                      by apply (Forall_le_snoc _ ml)].
      * case_decide; [by apply (Forall_le_weaken _ md)|
                      by apply (Forall_le_snoc _ md)].
  - destruct (decide (a = 0%Z)) as [->|Ha0].
    + by apply (IH _ _ _ ml md).
    + destruct HA as [Ha HA].
      apply (IH _ _ _ a md); try done. by apply (Forall_le_weaken _ ml).
Qed.

End matcher_facts.

(** ** Order of the identifiers the Segmenter writes *)

Section segmenter_order.
Import Segmenter.

Lemma segment_from_nz_mono rest c cur pv m :
  (0 ≤ c)%Z → (m ≤ c)%Z → pv = 0%Z ∨ pv = c →
  nz_mono m (segment_from c cur pv rest).
Proof.
  revert c cur pv m.
  induction rest as [|nxt rest IH]; intros c cur pv m H0 Hm Hpv.
  - simpl. case_decide; [done|]. split; [|done]. lia.
  - simpl. destruct (nxt && negb cur); simpl.
    + rewrite decide_False by lia. split; [lia|]. apply IH; auto with lia.
    + case_decide.
      * apply IH; [done|done|]. destruct (nxt || cur); auto.
      * split; [lia|]. assert (pv = c) as -> by lia.
        apply IH; [done|lia|]. destruct (nxt || cur); auto.
Qed.

Lemma flag_mono_cons (m : Z) (f : bool) flags (x : Z) l :
  flag_mono m (f :: flags) (x :: l)
  = if f then (m ≤ x)%Z ∧ flag_mono x flags l else flag_mono m flags l.
Proof. done. Qed.

Lemma segment_from_flag_mono rest c cur pv m :
  (m ≤ c)%Z → (cur = true → pv = c) →
  flag_mono m (cur :: rest) (segment_from c cur pv rest).
Proof.
  revert c cur pv m.
  induction rest as [|nxt rest IH]; intros c cur pv m Hm Hpv.
  - simpl. destruct cur; [|done]. split; [|done]. rewrite Hpv by done. lia.
  - cbn [segment_from]. destruct cur.
    + rewrite andb_false_r, flag_mono_cons, Hpv by done.
      split; [lia|]. apply IH; [lia|]. by rewrite orb_true_r.
    + rewrite andb_true_r, orb_false_r.
      destruct nxt; rewrite flag_mono_cons; (apply IH; [lia|done]).
Qed.

Lemma segment_nz_mono (flags : list bool) : nz_mono 0 (segment flags).
Proof.
  destruct flags as [|f0 rest]; [done|].
  apply segment_from_nz_mono; auto with lia.
Qed.

Lemma segment_flag_mono (flags : list bool) : flag_mono 0 flags (segment flags).
Proof.
  destruct flags as [|f0 rest]; [done|].
  by apply segment_from_flag_mono.
Qed.

End segmenter_order.

Lemma sorted_lt_NoDup (l : list Z) : StronglySorted Z.lt l → NoDup l.
Proof.
  induction 1 as [|x l Hs IH Hx]; constructor; [|done].
  intros Hin. rewrite Forall_forall in Hx. specialize (Hx x Hin). lia.
Qed.

Lemma segment_lengths (normal_lbl anomDetn : list bool) :
  length normal_lbl = length anomDetn → (0 < length anomDetn)%nat →
  length (Segmenter.determine_events normal_lbl) = length anomDetn ∧
  length (Segmenter.determine_detections anomDetn) = length anomDetn.
Proof.
  intros Hlen Hpos.
  rewrite determine_events_segment, determine_detections_segment.
  rewrite !segment_length, length_fmap. lia.
Qed.

(** The Matcher on the columns the Segmenter computes. *)
Lemma compare_on_segments (normal_lbl anomDetn : list bool) :
  length normal_lbl = length anomDetn → (0 < length anomDetn)%nat →
  ∃ detected_anomalies valid_detections : list Z,
    Matcher.compare_lbl_detns (Segmenter.determine_events normal_lbl) anomDetn
        (Segmenter.determine_detections anomDetn)
      = Ok (Segmenter.determine_detections anomDetn,
            detected_anomalies, valid_detections) ∧
    Matcher.match_from ([0%Z], [0%Z]) anomDetn
        (Segmenter.determine_events normal_lbl)
        (Segmenter.determine_detections anomDetn)
      = (0%Z :: detected_anomalies, 0%Z :: valid_detections) ∧
    (∀ x : Z, x ∈ detected_anomalies ↔
       ∃ i : nat, anomDetn !! i = Some true ∧
                  Segmenter.determine_events normal_lbl !! i = Some x ∧
                  x ≠ 0%Z) ∧
    (∀ y : Z, y ∈ valid_detections ↔
       y ≠ 0%Z ∧
       ∃ (i : nat) (a : Z),
         anomDetn !! i = Some true ∧
         Segmenter.determine_events normal_lbl !! i = Some a ∧ a ≠ 0%Z ∧
         Segmenter.determine_detections anomDetn !! i = Some y) ∧
    StronglySorted Z.lt detected_anomalies ∧
    StronglySorted Z.lt valid_detections ∧
    NoDup detected_anomalies ∧ NoDup valid_detections.
Proof.
  intros Hlen Hpos.
  destruct (segment_lengths normal_lbl anomDetn Hlen Hpos) as [HA HD].
  set (A := Segmenter.determine_events normal_lbl) in *.
  set (D := Segmenter.determine_detections anomDetn) in *.
  destruct (match_from_prefix anomDetn A D ([0%Z], [0%Z])) as [[r1 E1] [r2 E2]].
  destruct (match_from_elem anomDetn A D ([0%Z], [0%Z]) HA HD) as [M1 M2].
  destruct (match_from_sorted anomDetn A D ([0%Z], [0%Z]) 0 0) as [S1 S2];
    try (simpl; by repeat constructor).
  { unfold A. rewrite determine_events_segment. apply segment_nz_mono. }
  { unfold D. rewrite determine_detections_segment. apply segment_flag_mono. }
  simpl in E1, E2. rewrite E1 in M1, S1. rewrite E2 in M2, S2.
  apply StronglySorted_cons in S1 as [P1 S1].
  apply StronglySorted_cons in S2 as [P2 S2].
  rewrite Forall_forall in P1, P2.
  exists r1, r2. split; [|split; [|split; [|split]]].
  - rewrite compare_lbl_detns_ok by done. by rewrite E1, E2.
  - destruct (Matcher.match_from _ _ _ _) as [m1 m2]. simpl in *. congruence.
  - intros x. split.
    + intros Hx. assert (x ∈ 0%Z :: r1) as Hx' by by right.
      apply M1 in Hx' as [->%list_elem_of_singleton|?]; [|done].
      specialize (P1 _ Hx). lia.
    + intros Hx. assert (x ∈ 0%Z :: r1) as Hx' by (apply M1; by right).
      destruct Hx as (_ & _ & _ & Hx0).
      by apply elem_of_cons in Hx' as [?|?].
  - intros y. split.
    + intros Hy. specialize (P2 _ Hy). split; [lia|].
      assert (y ∈ 0%Z :: r2) as Hy' by by right.
      apply M2 in Hy' as [->%list_elem_of_singleton|?]; [lia|done].
    + intros [Hy0 Hy]. assert (y ∈ 0%Z :: r2) as Hy' by (apply M2; by right).
      by apply elem_of_cons in Hy' as [?|?].
  - auto using sorted_lt_NoDup.
Qed.

(** X21.  On the label events and detection events that the Segmenter
    computes for flag sequences of one length, [compare_lbl_detns]
    returns without raising; it walks the positions in order and, at
    each position whose detection flag is true and whose label event
    is not 0, appends the label event and the detection event unless
    the value equals the last one appended (the lists start as [0],
    which is removed at the end).  So [detected_anomalies] holds
    exactly the non-zero label events found at flagged positions,
    [valid_detections] exactly the non-zero detection events of those
    positions, and both lists are strictly increasing, hence free of
    duplicates. *)
Theorem matcher_collects_flagged_hits (normal_lbl anomDetn : list bool) :
  length normal_lbl = length anomDetn → (0 < length anomDetn)%nat →
  ∃ detected_anomalies valid_detections : list Z,
    Matcher.compare_lbl_detns (Segmenter.determine_events normal_lbl) anomDetn
        (Segmenter.determine_detections anomDetn)
      = Ok (Segmenter.determine_detections anomDetn,
            detected_anomalies, valid_detections) ∧
    Matcher.match_from ([0%Z], [0%Z]) anomDetn
        (Segmenter.determine_events normal_lbl)
        (Segmenter.determine_detections anomDetn)
      = (0%Z :: detected_anomalies, 0%Z :: valid_detections) ∧
    (∀ x : Z, x ∈ detected_anomalies ↔
       ∃ i : nat, anomDetn !! i = Some true ∧
                  Segmenter.determine_events normal_lbl !! i = Some x ∧
                  x ≠ 0%Z) ∧
    (∀ y : Z, y ∈ valid_detections ↔
       y ≠ 0%Z ∧
       ∃ (i : nat) (a : Z),
         anomDetn !! i = Some true ∧
         Segmenter.determine_events normal_lbl !! i = Some a ∧ a ≠ 0%Z ∧
         Segmenter.determine_detections anomDetn !! i = Some y) ∧
    StronglySorted Z.lt detected_anomalies ∧
    StronglySorted Z.lt valid_detections ∧
    NoDup detected_anomalies ∧ NoDup valid_detections.
Proof. apply compare_on_segments. Qed.

Lemma matcher_collects_flagged_hits_witness :
  ∃ detected_anomalies valid_detections : list Z,
    Matcher.compare_lbl_detns
        (Segmenter.determine_events [true; false; true; true])
        [false; true; false; false]
        (Segmenter.determine_detections [false; true; false; false])
      = Ok (Segmenter.determine_detections [false; true; false; false],
            detected_anomalies, valid_detections) ∧
    NoDup detected_anomalies ∧ NoDup valid_detections.
Proof.
  destruct (matcher_collects_flagged_hits
              [true; false; true; true] [false; true; false; false])
    as (da & vd & Hrun & _ & _ & _ & _ & _ & N1 & N2).
  - reflexivity.
  - simpl. lia.
  - exists da, vd. split; [exact Hrun|]. split; [exact N1|exact N2].
Defined.

(** C3 (the code departs from the claim).  The docstring of
    [compare_lbl_detns] says that it compares the widened events of
    labels and detections, and the counts of the roll-up are taken
    over the widened detection events; the loop, however, is guarded
    by the raw detection flag [anomDetn], and the widened detection
    events [anomDetns] are read only for the value appended.  The
    label flags [F,T,F,F,F] and the detection flags [F,F,F,T,F] give
    label events [1,1,1,0,0] and detection events [0,0,1,1,1]: at
    position 2 both events are non-zero, so the Matcher of the claim
    records label event 1 and detection event 1, while the code finds
    the flag false there and records nothing.  The same guard is what
    makes the true negatives negative: on label events
    [1,1,1,0,2,2,2] and detection events [0,0,1,1,2,2,2] the code
    matches only event 2, detection event 1 is reported as a false
    alarm and the counts are 3, 3, 2, -1, whereas the Matcher of the
    claim matches both events and the counts are 6, 0, 0, 1. *)
Theorem matcher_skips_unflagged_overlap :
  Segmenter.determine_events [true; false; true; true; true]
    = [1; 1; 1; 0; 0]%Z ∧
  Segmenter.determine_detections [false; false; false; true; false]
    = [0; 0; 1; 1; 1]%Z ∧
  Matcher.compare_lbl_detns [1; 1; 1; 0; 0]%Z
      [false; false; false; true; false] [0; 0; 1; 1; 1]%Z
    = Ok ([0; 0; 1; 1; 1]%Z, [], []) ∧
  Matcher.match_spec [1; 1; 1; 0; 0]%Z [0; 0; 1; 1; 1]%Z = ([1%Z], [1%Z]) ∧
  Segmenter.determine_events [true; false; true; true; true; false; true]
    = [1; 1; 1; 0; 2; 2; 2]%Z ∧
  Segmenter.determine_detections
      [false; false; false; true; false; true; false]
    = [0; 0; 1; 1; 2; 2; 2]%Z ∧
  Matcher.compare_lbl_detns [1; 1; 1; 0; 2; 2; 2]%Z
      [false; false; false; true; false; true; false]
      [0; 0; 1; 1; 2; 2; 2]%Z
    = Ok ([0; 0; 1; 1; 2; 2; 2]%Z, [2%Z], [2%Z]) ∧
  Classifier.false_detections [0; 0; 1; 1; 2; 2; 2]%Z [2%Z] = Ok [1%Z] ∧
  Metrics.confusion_counts [0; 0; 1; 1; 2; 2; 2]%Z
      [false; false; false; true; false; true; false]
      [1; 1; 1; 0; 2; 2; 2]%Z [2%Z] [1%Z]
    = Ok (Metrics.Counts 3 3 2 (-1)) ∧
  Matcher.match_spec [1; 1; 1; 0; 2; 2; 2]%Z [0; 0; 1; 1; 2; 2; 2]%Z
    = ([1; 2]%Z, [1; 2]%Z) ∧
  Classifier.false_detections [0; 0; 1; 1; 2; 2; 2]%Z [1; 2]%Z = Ok [] ∧
  Metrics.confusion_counts [0; 0; 1; 1; 2; 2; 2]%Z
      [false; false; false; true; false; true; false]
      [1; 1; 1; 0; 2; 2; 2]%Z [1; 2]%Z []
    = Ok (Metrics.Counts 6 0 0 1) ∧
  ¬ (∀ normal_lbl anomDetn : list bool,
       length normal_lbl = length anomDetn →
       Matcher.compare_lbl_detns (Segmenter.determine_events normal_lbl)
           anomDetn (Segmenter.determine_detections anomDetn)
       = Ok (Segmenter.determine_detections anomDetn,
             (Matcher.match_spec (Segmenter.determine_events normal_lbl)
                (Segmenter.determine_detections anomDetn)).1,
             (Matcher.match_spec (Segmenter.determine_events normal_lbl)
                (Segmenter.determine_detections anomDetn)).2)).
Proof.
  repeat (split; [vm_compute; reflexivity|]).
  intros H.
  specialize (H [true; false; true; true; true]
                [false; false; false; true; false] eq_refl).
  vm_compute in H. discriminate H.
Qed.

(** ** Classifier *)

Section classifier_facts.
Import Classifier.

(** Once [det_ind] has reached the end of [valid_detections] the loop
    appends nothing more. *)
Lemma false_loop_exhausted (valid : list Z) (inv : list Z) (k : nat)
    (ids : list Z) :
  (length valid ≤ k)%nat →
  foldl (false_step valid) (inv, k) ids = (inv, k).
Proof.
  intros Hk. induction ids as [|i ids IH]; [done|].
  simpl. by rewrite decide_False by lia.
Qed.

Lemma seqZ_snoc (m n : Z) :
  (0 ≤ n)%Z → seqZ m (n + 1) = seqZ m n ++ [(m + n)%Z].
Proof.
  intros Hn. rewrite <- (Z2Nat.id n) by done.
  replace (Z.of_nat (Z.to_nat n) + 1)%Z with (Z.of_nat (S (Z.to_nat n)))
    by lia.
  apply seqZ_S.
Qed.

(** When every identifier met is the next valid detection, nothing is
    reported. *)
Lemma false_loop_all_valid (n : Z) (len k : nat) :
  (foldl (false_step (seqZ 1 n)) ([], k)
         (seqZ (Z.of_nat k + 1) (Z.of_nat len))).1 = [].
Proof.
  revert k. induction len as [|len IH]; intros k; [done|].
  rewrite (seqZ_cons (Z.of_nat k + 1)) by lia. simpl.
  case_decide as Hk.
  - rewrite length_seqZ in Hk.
    rewrite lookup_seqZ_lt by lia.
    rewrite decide_True by (f_equal; lia).
    replace (Z.succ (Z.of_nat k + 1)) with (Z.of_nat (S k) + 1)%Z by lia.
    replace (Z.pred (Z.of_nat (S len))) with (Z.of_nat len) by lia.
    apply IH.
  - rewrite false_loop_exhausted by lia. done.
Qed.

Lemma seqZ_to_nat (m n : Z) : seqZ m n = seqZ m (Z.of_nat (Z.to_nat n)).
Proof. unfold seqZ. by rewrite Nat2Z.id. Qed.

Lemma false_detections_all_valid (anomDetns : list Z) (n : Z) :
  anomDetns ≠ [] → false_detections anomDetns (seqZ 1 n) = Ok [].
Proof.
  intros HD. unfold false_detections. destruct anomDetns as [|d D]; [done|].
  simpl. f_equal. rewrite (seqZ_to_nat 1 (_ - 1)).
  apply (false_loop_all_valid n _ 0).
Qed.

Lemma false_detections_none_valid (anomDetns : list Z) :
  anomDetns ≠ [] → false_detections anomDetns [] = Ok [].
Proof. apply (false_detections_all_valid anomDetns 0). Qed.

End classifier_facts.

(** C2 (the code departs from the claim).  One detection event that
    meets no label: the detection events are [0,1,1,1,0] and
    [valid_detections] is empty, so identifier 1 is a false alarm, but
    [false_detections] returns the empty list.  The loop stops one
    short of the maximum ([range(1, max)]), and it reports nothing
    once [det_ind] has passed the last valid detection.  With events
    1 and 2 of which only 1 is valid, identifier 2 is lost in the same
    way and its three points are not counted as false positives.
    Whatever the detection events are, an empty [valid_detections]
    gives an empty result. *)
Theorem false_detections_drops_alarms :
  windowing (series [true; true; true; true; true])
            (frame [false; false; true; false; false])
    = Ok ([0; 0; 0; 0; 0]%Z, [false; false; true; false; false],
          [0; 1; 1; 1; 0]%Z, [], []) ∧
  Classifier.false_detections [0; 1; 1; 1; 0]%Z [] = Ok [] ∧
  Classifier.false_alarms_spec [0; 1; 1; 1; 0]%Z [] = Ok [1%Z] ∧
  windowing (series [true; true; false; true; true; true; true; true])
            (frame [false; false; true; false; false; false; true; false])
    = Ok ([0; 1; 1; 1; 0; 0; 0; 0]%Z,
          [false; false; true; false; false; false; true; false],
          [0; 1; 1; 1; 0; 2; 2; 2]%Z, [1%Z], []) ∧
  Classifier.false_detections [0; 1; 1; 1; 0; 2; 2; 2]%Z [1%Z] = Ok [] ∧
  Classifier.false_alarms_spec [0; 1; 1; 1; 0; 2; 2; 2]%Z [1%Z] = Ok [2%Z] ∧
  evaluate_counts
      (series [true; true; false; true; true; true; true; true])
      (frame [false; false; true; false; false; false; true; false])
    = Ok (Metrics.Counts 3 0 0 5) ∧
  (∀ (d : Z) (anomDetns : list Z),
     Classifier.false_detections (d :: anomDetns) [] = Ok []).
Proof.
  repeat split; try (vm_compute; reflexivity).
  intros d anomDetns. by apply false_detections_none_valid.
Qed.

(** ** Counting with [value_counts] *)

Section counting.
Import Metrics.

Lemma foldl_add_acc (a : Z) (l : list Z) :
  foldl Z.add a l = (a + foldl Z.add 0 l)%Z.
Proof.
  revert a. induction l as [|x l IH]; intros a; simpl; [lia|].
  rewrite (IH (a + x)%Z), (IH (0 + x)%Z). lia.
Qed.

Lemma py_sum_cons (x : Z) (l : list Z) : py_sum (x :: l) = (x + py_sum l)%Z.
Proof. unfold py_sum. simpl. apply foldl_add_acc. Qed.

Lemma value_count_cons (x : Z) (s : list Z) (v : Z) :
  value_count (x :: s) v
  = ((if decide (x = v) then 1 else 0) + value_count s v)%Z.
Proof.
  unfold value_count. rewrite filter_cons.
  case_decide; simpl; lia.
Qed.

Lemma value_count_nonneg (s : list Z) (v : Z) : (0 ≤ value_count s v)%Z.
Proof. unfold value_count. lia. Qed.

Lemma value_count_pos (s : list Z) (v : Z) : v ∈ s → (0 < value_count s v)%Z.
Proof.
  induction s as [|x s IH]; [by intros ?%elem_of_nil|].
  rewrite value_count_cons. pose proof (value_count_nonneg s v).
  intros [->|Hin]%elem_of_cons; [by rewrite decide_True; [lia|]|].
  specialize (IH Hin). case_decide; lia.
Qed.

Lemma vc_getitems_ok (s ids : list Z) :
  Forall (λ v, v ∈ s) ids → vc_getitems s ids = Ok (value_count s <$> ids).
Proof.
  induction 1 as [|v ids Hv _ IH]; [done|].
  cbn [vc_getitems]. unfold vc_getitem at 1. rewrite decide_True by done.
  simpl. by rewrite IH.
Qed.

Lemma vc_getitems_raise (s ids : list Z) (e : pyexn) :
  vc_getitems s ids = Raise e → e = KeyError.
Proof.
  induction ids as [|v ids IH]; [done|].
  cbn [vc_getitems]. unfold vc_getitem at 1. case_decide; simpl; [|congruence].
  destruct (vc_getitems s ids); simpl; [done|].
  intros [= <-]. by apply IH.
Qed.

Lemma vc_getitems_nil (s : list Z) : vc_getitems s [] = Ok [].
Proof. done. Qed.

(** A sum of counts over distinct keys counts the entries whose value
    is one of the keys. *)
Lemma count_add_key (s : list Z) (x : Z) (ids : list Z) :
  x ∉ ids →
  (value_count s x + Z.of_nat (length (filter (λ v, v ∈ ids) s)))%Z
  = Z.of_nat (length (filter (λ v, v ∈ x :: ids) s)).
Proof.
  intros Hx. induction s as [|y s IH]; [done|].
  rewrite value_count_cons, !filter_cons.
  destruct (decide (y = x)) as [->|Hyx].
  - rewrite decide_False by done. rewrite decide_True by by left.
    simpl. lia.
  - destruct (decide (y ∈ ids)) as [Hin|Hnin].
    + rewrite decide_True by by right. simpl. lia.
    + rewrite decide_False; [lia|].
      by intros [?|?]%elem_of_cons.
Qed.

Lemma sum_counts_NoDup (s ids : list Z) :
  NoDup ids →
  py_sum (value_count s <$> ids)
  = Z.of_nat (length (filter (λ v, v ∈ ids) s)).
Proof.
  induction 1 as [|x ids Hx _ IH].
  - simpl. induction s as [|y s IHs]; [done|].
    rewrite filter_cons, decide_False; [done|]. by intros ?%elem_of_nil.
  - rewrite fmap_cons, py_sum_cons, IH. by apply count_add_key.
Qed.

Lemma count_zero_and_keys (s ids : list Z) :
  (0%Z ∉ ids) → Forall (λ v, v = 0%Z ∨ v ∈ ids) s →
  (value_count s 0 + Z.of_nat (length (filter (λ v, v ∈ ids) s)))%Z
  = Z.of_nat (length s).
Proof.
  intros H0 Hall. rewrite count_add_key by done.
  f_equal. f_equal. induction Hall as [|y s Hy _ IH]; [done|].
  rewrite filter_cons, decide_True; [by rewrite IH|].
  destruct Hy as [->|?]; [by left|by right].
Qed.

Lemma count_nonzero (s : list Z) :
  (Z.of_nat (length s) - value_count s 0)%Z
  = Z.of_nat (length (filter (λ v, v ≠ 0%Z) s)).
Proof.
  induction s as [|y s IH]; [done|].
  rewrite value_count_cons, filter_cons. simpl length.
  destruct (decide (y = 0%Z)) as [->|Hy].
  - rewrite decide_False by (by intros ?). lia.
  - rewrite decide_True by done. simpl length. lia.
Qed.

(** The four counts add up to the number of points, by the way
    [TrueNegatives] is computed. *)
Lemma confusion_counts_total anomDetns anomDetn anomLbl detected invalid c :
  confusion_counts anomDetns anomDetn anomLbl detected invalid = Ok c →
  (TruePositives c + FalseNegatives c + FalsePositives c + TrueNegatives c)%Z
  = Z.of_nat (length anomDetn).
Proof.
  unfold confusion_counts.
  destruct (vc_getitems anomLbl detected); simpl; [|done].
  destruct (vc_getitem anomLbl 0); simpl; [|done].
  destruct (vc_getitems anomDetns invalid); simpl; [|done].
  intros [= <-]. simpl. lia.
Qed.

Lemma confusion_counts_ok anomDetns anomDetn anomLbl detected invalid :
  Forall (λ v, v ∈ anomLbl) detected → 0%Z ∈ anomLbl →
  Forall (λ v, v ∈ anomDetns) invalid →
  confusion_counts anomDetns anomDetn anomLbl detected invalid
  = Ok (Counts
          (py_sum (value_count anomLbl <$> detected))
          (Z.of_nat (length anomDetn) - value_count anomLbl 0
           - py_sum (value_count anomLbl <$> detected))
          (py_sum (value_count anomDetns <$> invalid))
          (Z.of_nat (length anomDetn)
           - py_sum (value_count anomLbl <$> detected)
           - (Z.of_nat (length anomDetn) - value_count anomLbl 0
              - py_sum (value_count anomLbl <$> detected))
           - py_sum (value_count anomDetns <$> invalid))).
Proof.
  intros Hd H0 Hi. unfold confusion_counts.
  rewrite (vc_getitems_ok _ _ Hd). simpl.
  unfold vc_getitem. rewrite decide_True by done. simpl.
  by rewrite (vc_getitems_ok _ _ Hi).
Qed.

Lemma confusion_counts_no_zero anomDetns anomDetn anomLbl detected invalid :
  0%Z ∉ anomLbl →
  confusion_counts anomDetns anomDetn anomLbl detected invalid
  = Raise KeyError.
Proof.
  intros H0. unfold confusion_counts.
  destruct (vc_getitems anomLbl detected) as [hits|e] eqn:He; simpl.
  - unfold vc_getitem. by rewrite decide_False.
  - by rewrite (vc_getitems_raise _ _ _ He).
Qed.

End counting.

(** ** Range of the identifiers the Segmenter writes *)

Section segmenter_range.
Import Segmenter.

Lemma run_starts_nonneg cur rest : (0 ≤ run_starts cur rest)%Z.
Proof.
  revert cur. induction rest as [|nxt rest IH]; intros cur; simpl; [lia|].
  specialize (IH nxt). destruct (nxt && negb cur); lia.
Qed.

Lemma segment_from_bounds rest c cur pv :
  (0 ≤ pv ≤ c)%Z →
  Forall (λ v, 0 ≤ v ≤ c + run_starts cur rest)%Z (segment_from c cur pv rest).
Proof.
  revert c cur pv. induction rest as [|nxt rest IH]; intros c cur pv Hpv.
  - simpl. repeat constructor; lia.
  - simpl. pose proof (run_starts_nonneg nxt rest).
    destruct (nxt && negb cur); constructor; try lia.
    + eapply Forall_impl; [apply (IH (c + 1)%Z); lia|]. simpl. lia.
    + eapply Forall_impl; [apply (IH c nxt); destruct (nxt || cur); lia|].
      simpl. lia.
Qed.

Lemma segment_from_contains rest c cur pv (k : Z) :
  (c < k ≤ c + run_starts cur rest)%Z → k ∈ segment_from c cur pv rest.
Proof.
  revert c cur pv. induction rest as [|nxt rest IH]; intros c cur pv Hk.
  - simpl in Hk. lia.
  - simpl in *. destruct (nxt && negb cur).
    + destruct (decide (k = c + 1)%Z) as [->|Hne]; [by left|].
      right. apply IH. lia.
    + right. apply IH. lia.
Qed.

Lemma segment_bounds (flags : list bool) :
  Forall (λ v, 0 ≤ v ≤ final_count flags)%Z (segment flags).
Proof.
  destruct flags as [|f0 rest]; [by repeat constructor|].
  eapply Forall_impl; [by apply (segment_from_bounds rest 0 f0 0)|].
  simpl. lia.
Qed.

Lemma segment_contains (flags : list bool) (k : Z) :
  (0 < k ≤ final_count flags)%Z → k ∈ segment flags.
Proof.
  destruct flags as [|f0 rest]; simpl; [lia|].
  intros Hk. apply segment_from_contains. lia.
Qed.

End segmenter_range.

Section classifier_range.
Import Classifier.

Lemma py_max_bound (l : list Z) (b m : Z) :
  Forall (λ v, v ≤ b)%Z l → py_max l = Ok m → (m ≤ b)%Z.
Proof.
  destruct l as [|x l]; [done|]. simpl. intros Hall [= <-].
  apply Forall_cons in Hall as [Hx Hl]. revert x Hx.
  induction Hl as [|y l Hy _ IH]; intros x Hx; simpl; [done|].
  apply IH. lia.
Qed.

Lemma false_loop_range (P : Z → Prop) valid (ids inv : list Z) (k : nat) :
  Forall P inv → Forall P ids →
  Forall P (foldl (false_step valid) (inv, k) ids).1.
Proof.
  intros Hinv Hids. revert inv k Hinv.
  induction Hids as [|i ids Hi _ IH]; intros inv k Hinv; [done|].
  simpl. repeat case_decide; apply IH; try done.
  apply Forall_app. split; [done|by repeat constructor].
Qed.

Lemma false_detections_range (anomDetns valid : list Z) (b : Z) :
  anomDetns ≠ [] → Forall (λ v, v ≤ b)%Z anomDetns →
  ∃ invalid, false_detections anomDetns valid = Ok invalid ∧
             Forall (λ i, 0 < i ≤ b)%Z invalid.
Proof.
  intros HD Hb. unfold false_detections.
  destruct (py_max anomDetns) as [m|] eqn:Hm; [|by destruct anomDetns].
  simpl. eexists. split; [done|].
  pose proof (py_max_bound _ _ _ Hb Hm).
  apply false_loop_range; [done|].
  apply Forall_seqZ. intros. lia.
Qed.

End classifier_range.


(** ** The whole of [windowing] *)

Section pipeline.
Import Segmenter Matcher Classifier Aligner.

Lemma series_nonempty_lengths (normal_lbl : list (Z * bool)) :
  normal_lbl ≠ [] →
  (0 < length normal_lbl.*1)%nat ∧
  length normal_lbl.*2 = length normal_lbl.*1.
Proof.
  intros Hne. rewrite !length_fmap. split; [|done].
  destruct normal_lbl; [done|simpl; lia].
Qed.

Lemma align_length (anomDetn : gmap Z bool) (index : list Z) :
  length (align anomDetn index) = length index.
Proof. unfold align, fill_null, reindex. by rewrite !length_fmap. Qed.

Lemma windowing_ok (normal_lbl : list (Z * bool)) (anomDetn : gmap Z bool) :
  normal_lbl ≠ [] →
  ∃ detected valid invalid : list Z,
    windowing normal_lbl anomDetn
      = Ok (determine_events normal_lbl.*2,
            align anomDetn normal_lbl.*1,
            determine_detections (align anomDetn normal_lbl.*1),
            detected, invalid) ∧
    match_from ([0%Z], [0%Z]) (align anomDetn normal_lbl.*1)
        (determine_events normal_lbl.*2)
        (determine_detections (align anomDetn normal_lbl.*1))
      = (0%Z :: detected, 0%Z :: valid) ∧
    false_detections (determine_detections (align anomDetn normal_lbl.*1))
        valid = Ok invalid ∧
    Forall (λ v, v ∈ determine_events normal_lbl.*2) detected ∧
    NoDup detected ∧ (0%Z ∉ detected) ∧
    Forall (λ v, v ∈ determine_detections (align anomDetn normal_lbl.*1))
           invalid ∧
    length (determine_events normal_lbl.*2)
      = length (align anomDetn normal_lbl.*1).
Proof.
  intros Hne.
  destruct (series_nonempty_lengths normal_lbl Hne) as [Hpos Hlen].
  set (F := align anomDetn normal_lbl.*1).
  assert (length F = length normal_lbl.*1) as HF by apply align_length.
  destruct (compare_on_segments normal_lbl.*2 F)
    as (da & vd & Hrun & Hmatch & Hda & _ & _ & _ & Nda & _); [lia..|].
  destruct (segment_lengths normal_lbl.*2 F) as [HA HD]; [lia..|].
  destruct (false_detections_range (determine_detections F) vd
              (final_count F)) as (inv & Hinv & Hrange).
  { intros Hnil. rewrite Hnil in HD. simpl in HD. lia. }
  { rewrite determine_detections_segment.
    eapply Forall_impl; [apply segment_bounds|]. simpl. lia. }
  exists da, vd, inv. split; [|split; [done|split; [done|]]].
  - unfold windowing, DataFrame. fold F.
    rewrite decide_True by lia. simpl.
    rewrite decide_True by lia. simpl.
    rewrite Hrun. simpl. by rewrite Hinv.
  - split; [|split; [done|split; [|split; [|lia]]]].
    + apply Forall_forall. intros x (i & _ & Hi & _)%Hda.
      by eapply list_elem_of_lookup_2.
    + by intros (i & _ & _ & ?)%Hda.
    + eapply Forall_impl; [exact Hrange|]. simpl. intros k Hk.
      rewrite determine_detections_segment. by apply segment_contains.
Qed.

End pipeline.

(** ** Detection flags equal to the label flags *)

Section full_overlap.
Import Segmenter Matcher Classifier Metrics.

Lemma last_seqZ (k : Z) : (0 ≤ k)%Z → last (seqZ 0 (k + 1)) = Some k.
Proof. intros Hk. rewrite seqZ_snoc by done. by rewrite last_snoc. Qed.

(** The Matcher's lists hold [0 .. k]; after a flagged position whose
    entry is the counter [c] they hold [0 .. c]. *)
Lemma match_row_same (cur : bool) (v c k : Z) :
  (cur = true → v = c) → (0 ≤ k)%Z →
  k = c ∨ (cur = true ∧ (k + 1)%Z = c) →
  match_row (seqZ 0 (k + 1), seqZ 0 (k + 1)) cur v v
  = (seqZ 0 (c + 1), seqZ 0 (c + 1)).
Proof.
  intros Hv Hk Hkc. unfold match_row. destruct cur.
  - rewrite Hv by done. simpl. rewrite last_seqZ by done.
    case_decide as Hc0.
    + destruct Hkc as [->|[_ <-]].
      * by rewrite !decide_True.
      * rewrite !decide_False by (intros [=]; lia).
        rewrite (seqZ_snoc 0 (k + 1)) by lia. by rewrite Z.add_0_l.
    + destruct Hkc as [->|[_ <-]]; [done|lia].
  - by destruct Hkc as [->|[[=] _]].
Qed.

Lemma match_from_same rest c cur pv (k : Z) :
  (cur = true → pv = c) → (0 ≤ k)%Z →
  k = c ∨ (cur = true ∧ (k + 1)%Z = c) →
  match_from (seqZ 0 (k + 1), seqZ 0 (k + 1)) (cur :: rest)
             (segment_from c cur pv rest) (segment_from c cur pv rest)
  = (seqZ 0 (c + run_starts cur rest + 1),
     seqZ 0 (c + run_starts cur rest + 1)).
Proof.
  revert c cur pv k.
  induction rest as [|nxt rest IH]; intros c cur pv k Hpv Hk Hkc.
  - simpl. rewrite Z.add_0_r. by apply match_row_same.
  - cbn [segment_from run_starts]. destruct cur.
    + rewrite andb_false_r, orb_true_r. cbn [match_from].
      rewrite (match_row_same true pv c k) by done.
      rewrite Z.add_0_l.
      apply IH; [done|lia|by left].
    + rewrite andb_true_r, orb_false_r.
      destruct Hkc as [->|[[=] _]].
      destruct nxt; cbn [match_from]; unfold match_row.
      * replace (c + (1 + run_starts true rest))%Z
          with (c + 1 + run_starts true rest)%Z by lia.
        apply IH; [done|lia|by right].
      * rewrite Z.add_0_l. apply IH; [done|lia|by left].
Qed.

Lemma match_from_segment_same (flags : list bool) :
  flags ≠ [] →
  match_from ([0%Z], [0%Z]) flags (segment flags) (segment flags)
  = (0%Z :: seqZ 1 (final_count flags), 0%Z :: seqZ 1 (final_count flags)).
Proof.
  destruct flags as [|f0 rest]; [done|]. intros _.
  unfold segment, final_count.
  pose proof (run_starts_nonneg f0 rest).
  change ([0%Z], [0%Z]) with (seqZ 0 (0 + 1), seqZ 0 (0 + 1)).
  rewrite (match_from_same rest 0 f0 0 0); [|by intros _|done|by left].
  rewrite Z.add_0_l. rewrite (seqZ_cons 0) by lia.
  by replace (Z.pred (run_starts f0 rest + 1)) with (run_starts f0 rest) by lia.
Qed.

Lemma segment_zero_or_id (flags : list bool) :
  Forall (λ v, v = 0%Z ∨ v ∈ seqZ 1 (final_count flags)) (segment flags).
Proof.
  eapply Forall_impl; [apply segment_bounds|]. simpl. intros v Hv.
  destruct (decide (v = 0%Z)); [by left|right].
  apply elem_of_seqZ. lia.
Qed.

End full_overlap.

Section pipeline_counts.
Import Segmenter Matcher Classifier Aligner Metrics.

Lemma match_from_unflagged (n : nat) (A D : list Z) st :
  match_from st (replicate n false) A D = st.
Proof.
  revert A D. induction n as [|n IH]; intros A D; [done|].
  destruct A as [|a A], D as [|d D]; try done. simpl. apply IH.
Qed.

Lemma full_overlap_counts (normal_lbl : list (Z * bool))
    (anomDetn : gmap Z bool) :
  normal_lbl ≠ [] →
  align anomDetn normal_lbl.*1 = negb <$> normal_lbl.*2 →
  0%Z ∈ determine_events normal_lbl.*2 →
  evaluate_counts normal_lbl anomDetn
  = Ok (Counts
          (Z.of_nat (length (filter (λ v, v ≠ 0%Z)
                                    (determine_events normal_lbl.*2))))
          0 0
          (value_count (determine_events normal_lbl.*2) 0)).
Proof.
  intros Hne Hsame H0.
  destruct (windowing_ok normal_lbl anomDetn Hne)
    as (da & vd & inv & Hw & Hmatch & Hinv & Hda & _ & _ & Hin & Hlen).
  rewrite Hsame in *. rewrite determine_events_segment in *.
  rewrite determine_detections_segment in *.
  set (F := negb <$> normal_lbl.*2) in *.
  assert (F ≠ []) as HF.
  { intros HF. rewrite HF in Hlen. by destruct normal_lbl. }
  rewrite (match_from_segment_same F HF) in Hmatch.
  injection Hmatch as <- <-.
  rewrite false_detections_all_valid in Hinv
    by (intros E; rewrite E in Hlen; by destruct F).
  injection Hinv as <-.
  unfold evaluate_counts. rewrite Hw. simpl.
  rewrite confusion_counts_ok by done.
  rewrite sum_counts_NoDup by apply NoDup_seqZ.
  assert (0%Z ∉ seqZ 1 (final_count F)) as Hz.
  { intros ?%elem_of_seqZ. lia. }
  pose proof (count_zero_and_keys (segment F) _ Hz (segment_zero_or_id F)) as Hc.
  pose proof (count_nonzero (segment F)) as Hnz.
  rewrite <- Hlen.
  change (py_sum (value_count (segment F) <$> [])) with 0%Z.
  f_equal. f_equal; lia.
Qed.

Lemma windowing_without_detections (normal_lbl : list (Z * bool))
    (anomDetn : gmap Z bool) :
  normal_lbl ≠ [] →
  align anomDetn normal_lbl.*1 = replicate (length normal_lbl) false →
  windowing normal_lbl anomDetn
  = Ok (determine_events normal_lbl.*2,
        replicate (length normal_lbl) false,
        replicate (length normal_lbl) 0%Z, [], []).
Proof.
  intros Hne Hnone.
  destruct (windowing_ok normal_lbl anomDetn Hne)
    as (da & vd & inv & Hw & Hmatch & Hinv & _).
  rewrite Hnone in *.
  rewrite match_from_unflagged in Hmatch. injection Hmatch as <- <-.
  rewrite determine_detections_segment, segment_replicate in *.
  replace (length normal_lbl `max` 1)%nat with (length normal_lbl) in *
    by (destruct normal_lbl; [done|simpl; lia]).
  rewrite false_detections_none_valid in Hinv
    by (by destruct normal_lbl).
  by injection Hinv as <-.
Qed.

Lemma counts_without_detections (normal_lbl : list (Z * bool))
    (anomDetn : gmap Z bool) :
  normal_lbl ≠ [] →
  align anomDetn normal_lbl.*1 = replicate (length normal_lbl) false →
  0%Z ∈ determine_events normal_lbl.*2 →
  evaluate_counts normal_lbl anomDetn
  = Ok (Counts 0
          (Z.of_nat (length (filter (λ v, v ≠ 0%Z)
                                    (determine_events normal_lbl.*2))))
          0
          (value_count (determine_events normal_lbl.*2) 0)).
Proof.
  intros Hne Hnone H0.
  destruct (windowing_ok normal_lbl anomDetn Hne)
    as (da & vd & inv & _ & _ & _ & _ & _ & _ & _ & Hlen).
  rewrite Hnone, length_replicate in Hlen.
  unfold evaluate_counts.
  rewrite windowing_without_detections by done. simpl.
  rewrite confusion_counts_ok by (done || by constructor).
  rewrite length_replicate.
  pose proof (count_nonzero (determine_events normal_lbl.*2)) as Hnz.
  rewrite <- Hlen.
  change (py_sum (value_count ?s <$> [])) with 0%Z.
  f_equal. f_equal; lia.
Qed.

Lemma evaluate_counts_no_zero (normal_lbl : list (Z * bool))
    (anomDetn : gmap Z bool) :
  normal_lbl ≠ [] → 0%Z ∉ determine_events normal_lbl.*2 →
  evaluate_counts normal_lbl anomDetn = Raise KeyError ∧
  evaluate normal_lbl anomDetn = Raise KeyError.
Proof.
  intros Hne H0.
  destruct (windowing_ok normal_lbl anomDetn Hne) as (da & vd & inv & Hw & _).
  unfold evaluate_counts, evaluate, metrics. rewrite Hw. simpl.
  by rewrite confusion_counts_no_zero.
Qed.

Lemma evaluate_counts_with_zero (normal_lbl : list (Z * bool))
    (anomDetn : gmap Z bool) :
  normal_lbl ≠ [] → 0%Z ∈ determine_events normal_lbl.*2 →
  ∃ c, evaluate_counts normal_lbl anomDetn = Ok c ∧
       FalseNegatives c
       = (Z.of_nat (length normal_lbl)
          - value_count (determine_events normal_lbl.*2) 0
          - TruePositives c)%Z.
Proof.
  intros Hne H0.
  destruct (windowing_ok normal_lbl anomDetn Hne)
    as (da & vd & inv & Hw & _ & _ & Hda & _ & _ & Hin & Hlen).
  unfold evaluate_counts. rewrite Hw. simpl.
  rewrite confusion_counts_ok by done.
  eexists. split; [done|]. simpl.
  by rewrite align_length, length_fmap.
Qed.

Lemma py_sum_nonneg (l : list Z) : Forall (λ v, 0 ≤ v)%Z l → (0 ≤ py_sum l)%Z.
Proof.
  induction 1 as [|x l Hx _ IH]; [done|]. rewrite py_sum_cons. lia.
Qed.

Lemma counts_nonneg (s ids : list Z) :
  (0 ≤ py_sum (value_count s <$> ids))%Z.
Proof.
  apply py_sum_nonneg, Forall_fmap, Forall_forall.
  intros v _. apply value_count_nonneg.
Qed.

(** In a run of the script three of the four counts cannot be
    negative; [TrueNegatives] is only known to complete the sum. *)
Lemma evaluate_counts_bounds (normal_lbl : list (Z * bool))
    (anomDetn : gmap Z bool) (c : counts) :
  evaluate_counts normal_lbl anomDetn = Ok c →
  (0 ≤ TruePositives c)%Z ∧ (0 ≤ FalseNegatives c)%Z ∧
  (0 ≤ FalsePositives c)%Z ∧
  (TruePositives c + FalseNegatives c + FalsePositives c + TrueNegatives c)%Z
  = Z.of_nat (length normal_lbl).
Proof.
  destruct (decide (normal_lbl = [])) as [->|Hne]; [done|].
  destruct (windowing_ok normal_lbl anomDetn Hne)
    as (da & vd & inv & Hw & _ & _ & Hda & Nda & Hz & Hin & Hlen).
  unfold evaluate_counts. rewrite Hw. simpl. intros Hc.
  pose proof (confusion_counts_total _ _ _ _ _ _ Hc) as Htot.
  rewrite align_length, length_fmap in Htot.
  destruct (decide (0%Z ∈ determine_events normal_lbl.*2)) as [H0|H0];
    [|by rewrite confusion_counts_no_zero in Hc].
  rewrite confusion_counts_ok in Hc by done. injection Hc as <-. simpl in *.
  pose proof (counts_nonneg (determine_events normal_lbl.*2) da).
  pose proof (counts_nonneg
                (determine_detections (align anomDetn normal_lbl.*1)) inv).
  split; [done|]. split; [|split; [done|lia]].
  rewrite sum_counts_NoDup by done.
  rewrite <- Hlen.
  pose proof (count_add_key (determine_events normal_lbl.*2) 0 da Hz) as Hk.
  pose proof (length_filter (λ v, v ∈ 0%Z :: da)
                            (determine_events normal_lbl.*2)).
  lia.
Qed.

End pipeline_counts.

(** ** Divisions of [metrics] *)

Section ratios.
Import Metrics.

Lemma signed_inf_not_finite (c : comparison) : ¬ is_finite (signed_inf c).
Proof. destruct c; simpl; tauto. Qed.

Lemma inject_Z_zero (b : Z) : Qeq_bool (inject_Z b) 0 = true ↔ b = 0%Z.
Proof.
  rewrite Qeq_bool_iff. unfold Qeq, inject_Z. simpl. lia.
Qed.

Lemma np_div_int (a b : Z) :
  np_div (of_int a) (of_int b)
  = if decide (b = 0%Z) then signed_inf (Qcompare (inject_Z a) 0)
    else Finite (inject_Z a / inject_Z b).
Proof.
  unfold np_div, of_int.
  destruct (Qeq_bool (inject_Z b) 0) eqn:E.
  - apply inject_Z_zero in E. by rewrite decide_True.
  - rewrite decide_False; [done|]. intros Hb.
    apply inject_Z_zero in Hb. congruence.
Qed.

Lemma np_div_zero_sum (x : npfloat) (p q : Q) :
  Qeq (p + q) 0 → ¬ is_finite (np_div x (np_add (Finite p) (Finite q))).
Proof.
  intros Hpq. apply Qeq_bool_iff in Hpq.
  destruct x as [a| | |]; simpl; rewrite ?Hpq.
  - apply signed_inf_not_finite.
  - destruct (Qle_bool 0 (p + q)); simpl; tauto.
  - destruct (Qle_bool 0 (p + q)); simpl; tauto.
  - tauto.
Qed.

Lemma metrics_after_counts anomDetns anomDetn anomLbl detected invalid c :
  confusion_counts anomDetns anomDetn anomLbl detected invalid = Ok c →
  ((TruePositives c + FalsePositives c)%Z = 0%Z →
     metrics anomDetns anomDetn anomLbl detected invalid
       = Raise ZeroDivisionError) ∧
  ((TruePositives c + FalsePositives c)%Z ≠ 0%Z →
     ∃ r : report,
       metrics anomDetns anomDetn anomLbl detected invalid = Ok (c, r) ∧
       is_finite (PRC r) ∧ PPV r = PRC r ∧
       ((TrueNegatives c + FalseNegatives c)%Z = 0%Z → ¬ is_finite (NPV r)) ∧
       ((TrueNegatives c + FalseNegatives c)%Z ≠ 0%Z → is_finite (NPV r)) ∧
       ((TruePositives c + FalseNegatives c)%Z = 0%Z → ¬ is_finite (RCL r)) ∧
       ((TruePositives c + FalseNegatives c)%Z ≠ 0%Z → is_finite (RCL r)) ∧
       (∀ p q : Q, PRC r = Finite p → RCL r = Finite q → Qeq (p + q) 0 →
                   ¬ is_finite (f1 r))).
Proof.
  intros Hc. unfold metrics. rewrite Hc.
  cbn [mbind result_bind mret result_ret]. unfold py_div. split.
  - intros Hz. by rewrite decide_True.
  - intros Hnz. rewrite decide_False by done.
    eexists. split; [done|]. cbn [PRC PPV NPV ACC RCL f1 f2].
    rewrite !np_div_int.
    split; [done|]. split; [done|].
    split; [intros ->; rewrite decide_True by done;
            apply signed_inf_not_finite|].
    split; [intros ?; by rewrite decide_False|].
    split; [intros ->; rewrite decide_True by done;
            apply signed_inf_not_finite|].
    split; [intros ?; by rewrite decide_False|].
    intros p q Hp Hq Hpq. rewrite Hq. injection Hp as ->.
    by apply np_div_zero_sum.
Qed.

End ratios.

(** C4 (the code departs from the claim).  The counts always add up
    to the number of points, because [TrueNegatives] is computed as
    the remainder, and three of them are never negative in a run
    ([evaluate_counts_bounds]), but [TrueNegatives] can be negative.  Label flags [F,T,F,F,F,T,F] and detection flags
    [F,F,F,T,F,T,F]: the false alarm (detection event 1, positions 2
    and 3) reaches position 2, which also belongs to label event 1 and
    is counted there as a false negative, so 3 + 3 + 2 of the 7 points
    are taken before the true negatives, which come out as -1. *)
Theorem true_negatives_below_zero :
  windowing (series [true; false; true; true; true; false; true])
            (frame [false; false; false; true; false; true; false])
    = Ok ([1; 1; 1; 0; 2; 2; 2]%Z,
          [false; false; false; true; false; true; false],
          [0; 0; 1; 1; 2; 2; 2]%Z, [2%Z], [1%Z]) ∧
  evaluate_counts (series [true; false; true; true; true; false; true])
                  (frame [false; false; false; true; false; true; false])
    = Ok (Metrics.Counts 3 3 2 (-1)).
Proof. split; vm_compute; reflexivity. Qed.

(** C5 (as amended).  When the aligned detection flags are all false,
    the Matcher finds nothing, [false_detections] returns the empty
    list without raising, and the counts are [TruePositives = 0] and
    [FalsePositives = 0].  [FalseNegatives] is the number of points
    whose label event is not 0: the labelled points together with the
    point before and the point after each labelled run, and without
    the points of a run that starts at position 0.  The counts exist
    only if some label event is 0; otherwise the lookup of the zero
    count raises [KeyError]. *)
Theorem no_detections_counts (normal_lbl : list (Z * bool))
    (anomDetn : gmap Z bool) :
  normal_lbl ≠ [] →
  Aligner.align anomDetn normal_lbl.*1 = replicate (length normal_lbl) false →
  windowing normal_lbl anomDetn
    = Ok (Segmenter.determine_events normal_lbl.*2,
          replicate (length normal_lbl) false,
          replicate (length normal_lbl) 0%Z, [], []) ∧
  Classifier.false_detections (replicate (length normal_lbl) 0%Z) [] = Ok [] ∧
  (0%Z ∈ Segmenter.determine_events normal_lbl.*2 →
     evaluate_counts normal_lbl anomDetn
     = Ok (Metrics.Counts 0
             (Z.of_nat (length (filter (λ v, v ≠ 0%Z)
                          (Segmenter.determine_events normal_lbl.*2))))
             0
             (Metrics.value_count
                (Segmenter.determine_events normal_lbl.*2) 0))) ∧
  (0%Z ∉ Segmenter.determine_events normal_lbl.*2 →
     evaluate_counts normal_lbl anomDetn = Raise KeyError).
Proof.
  intros Hne Hnone.
  split; [by apply windowing_without_detections|].
  split; [apply false_detections_none_valid; by destruct normal_lbl|].
  split; [by apply counts_without_detections|].
  intros H0. by apply evaluate_counts_no_zero.
Qed.

Lemma no_detections_counts_witness :
  windowing (series [true; false; true; true])
            (frame [false; false; false; false])
    = Ok (Segmenter.determine_events [true; false; true; true],
          [false; false; false; false], [0; 0; 0; 0]%Z, [], []) ∧
  Classifier.false_detections [0; 0; 0; 0]%Z [] = Ok [].
Proof.
  destruct (no_detections_counts (series [true; false; true; true])
                                 (frame [false; false; false; false]))
    as (Hw & Hc & _).
  - discriminate.
  - vm_compute. reflexivity.
  - split; [exact Hw|exact Hc].
Defined.

(** C5 as stated fails in its last part: with label flags [F,T,F,F]
    and no detection, one point is labelled anomalous but
    [FalseNegatives] is 3, the size of the widened label event. *)
Lemma no_detections_false_negatives_widened :
  evaluate_counts (series [true; false; true; true])
                  (frame [false; false; false; false])
    = Ok (Metrics.Counts 0 3 0 1) ∧
  length (filter (λ normal : bool, normal = false)
                 [true; false; true; true]) = 1%nat.
Proof. split; vm_compute; reflexivity. Qed.

(** C6 (as amended).  When the aligned detection flags equal the label
    flags and some label event is 0, every label event is detected
    and every detection event is valid, so [invalid_detections] is
    empty, [FalsePositives = 0] and [FalseNegatives = 0].  The counts
    are produced exactly when some label event is 0; otherwise the
    zero count is missing and the roll-up raises [KeyError] before any
    count exists. *)
Theorem full_overlap_no_misses (normal_lbl : list (Z * bool))
    (anomDetn : gmap Z bool) :
  normal_lbl ≠ [] →
  Aligner.align anomDetn normal_lbl.*1 = negb <$> normal_lbl.*2 →
  (0%Z ∈ Segmenter.determine_events normal_lbl.*2 →
     ∃ c : Metrics.counts,
       evaluate_counts normal_lbl anomDetn = Ok c ∧
       Metrics.FalseNegatives c = 0%Z ∧ Metrics.FalsePositives c = 0%Z) ∧
  (0%Z ∉ Segmenter.determine_events normal_lbl.*2 →
     evaluate_counts normal_lbl anomDetn = Raise KeyError).
Proof.
  intros Hne Hsame. split.
  - intros H0. eexists. split; [by apply full_overlap_counts|done].
  - intros H0. by apply evaluate_counts_no_zero.
Qed.

Lemma full_overlap_no_misses_witness :
  ∃ c : Metrics.counts,
    evaluate_counts (series [true; false; false; true; true])
                    (frame [false; true; true; false; false]) = Ok c ∧
    Metrics.FalseNegatives c = 0%Z ∧ Metrics.FalsePositives c = 0%Z.
Proof.
  apply (full_overlap_no_misses (series [true; false; false; true; true])
                                (frame [false; true; true; false; false])).
  - discriminate.
  - vm_compute. reflexivity.
  - apply (bool_decide_unpack _). vm_compute. exact I.
Defined.

(** C6 as stated fails: with label flags [F,T,T] and the same detection
    flags the label events are [1,1,1], no label event is 0, and the
    roll-up raises [KeyError]: there is no count, so neither
    [FalseNegatives = 0] nor [FalsePositives = 0] holds of the run. *)
Lemma full_overlap_without_zero_raises :
  Aligner.align (frame [false; true; true]) (series [true; false; false]).*1
    = negb <$> (series [true; false; false]).*2 ∧
  Segmenter.determine_events (series [true; false; false]).*2
    = [1; 1; 1]%Z ∧
  evaluate_counts (series [true; false; false]) (frame [false; true; true])
    = Raise KeyError ∧
  ¬ (∀ (normal_lbl : list (Z * bool)) (anomDetn : gmap Z bool),
       normal_lbl ≠ [] →
       Aligner.align anomDetn normal_lbl.*1 = negb <$> normal_lbl.*2 →
       ∃ c : Metrics.counts,
         evaluate_counts normal_lbl anomDetn = Ok c ∧
         Metrics.FalseNegatives c = 0%Z ∧ Metrics.FalsePositives c = 0%Z).
Proof.
  repeat (split; [vm_compute; reflexivity|]).
  intros H.
  destruct (H (series [true; false; false]) (frame [false; true; true]))
    as (c & Hc & _).
  - discriminate.
  - vm_compute. reflexivity.
  - vm_compute in Hc. discriminate Hc.
Qed.

(** C7 (as amended).  [metrics] has no guard on any divisor.  Its
    first division, [TruePositives / (TruePositives + FalsePositives)],
    divides Python integers: when [TP + FP = 0] it raises
    [ZeroDivisionError] and no report at all is returned.  When
    [TP + FP] is not 0 the report is returned; a zero divisor of a
    later ratio does not raise but leaves [nan] or an infinity in that
    one field: [NPV] when [TN + FN = 0], [RCL] when [TP + FN = 0],
    [f1] when [PRC + RCL = 0]. *)
Theorem metrics_zero_denominator (anomDetns : list Z) (anomDetn : list bool)
    (anomLbl detected invalid : list Z) (c : Metrics.counts) :
  Metrics.confusion_counts anomDetns anomDetn anomLbl detected invalid = Ok c →
  ((Metrics.TruePositives c + Metrics.FalsePositives c)%Z = 0%Z →
     Metrics.metrics anomDetns anomDetn anomLbl detected invalid
       = Raise ZeroDivisionError) ∧
  ((Metrics.TruePositives c + Metrics.FalsePositives c)%Z ≠ 0%Z →
     ∃ r : Metrics.report,
       Metrics.metrics anomDetns anomDetn anomLbl detected invalid
         = Ok (c, r) ∧
       Metrics.is_finite (Metrics.PRC r) ∧ Metrics.PPV r = Metrics.PRC r ∧
       ((Metrics.TrueNegatives c + Metrics.FalseNegatives c)%Z = 0%Z →
          ¬ Metrics.is_finite (Metrics.NPV r)) ∧
       ((Metrics.TrueNegatives c + Metrics.FalseNegatives c)%Z ≠ 0%Z →
          Metrics.is_finite (Metrics.NPV r)) ∧
       ((Metrics.TruePositives c + Metrics.FalseNegatives c)%Z = 0%Z →
          ¬ Metrics.is_finite (Metrics.RCL r)) ∧
       ((Metrics.TruePositives c + Metrics.FalseNegatives c)%Z ≠ 0%Z →
          Metrics.is_finite (Metrics.RCL r)) ∧
       (∀ p q : Q,
          Metrics.PRC r = Metrics.Finite p →
          Metrics.RCL r = Metrics.Finite q → Qeq (p + q) 0 →
          ¬ Metrics.is_finite (Metrics.f1 r))).
Proof. apply metrics_after_counts. Qed.

Lemma metrics_zero_denominator_witness :
  Metrics.metrics [0; 0; 0; 0]%Z [false; false; false; false]
                  [1; 1; 1; 0]%Z [] []
    = Raise ZeroDivisionError.
Proof.
  refine (proj1 (metrics_zero_denominator
                   [0; 0; 0; 0]%Z [false; false; false; false]
                   [1; 1; 1; 0]%Z [] [] (Metrics.Counts 0 3 0 1) _) _).
  - vm_compute. reflexivity.
  - reflexivity.
Defined.

(** C7 as stated fails: with one labelled point and no detection the
    counts are computed ([TP = 0], [FP = 0]), and then the whole call
    raises [ZeroDivisionError]; no metric is reported. *)
Lemma metrics_raise_without_detections :
  evaluate_counts (series [true; false; true; true])
                  (frame [false; false; false; false])
    = Ok (Metrics.Counts 0 3 0 1) ∧
  evaluate (series [true; false; true; true])
           (frame [false; false; false; false])
    = Raise ZeroDivisionError.
Proof. split; vm_compute; reflexivity. Qed.

(** C10.  If no label event is 0, the lookup [value_counts()[0]] has
    no such key: the counts, and so [metrics] and the whole
    evaluation, raise [KeyError].  Label flags [F,T,...,T] are such an
    input: every entry is 1.  If some label event is 0 the lookup
    succeeds with a positive count, and in a run of the script the
    counts are produced with
    [FalseNegatives = len - value_counts()[0] - TruePositives]. *)
Theorem zero_free_labels_raise :
  (∀ (anomDetns : list Z) (anomDetn : list bool)
     (anomLbl detected invalid : list Z),
     0%Z ∉ anomLbl →
     Metrics.confusion_counts anomDetns anomDetn anomLbl detected invalid
       = Raise KeyError ∧
     Metrics.metrics anomDetns anomDetn anomLbl detected invalid
       = Raise KeyError) ∧
  (∀ n : nat,
     Segmenter.determine_events (true :: replicate (S n) false)
       = replicate (S (S n)) 1%Z) ∧
  (∀ (normal_lbl : list (Z * bool)) (anomDetn : gmap Z bool),
     normal_lbl ≠ [] →
     0%Z ∉ Segmenter.determine_events normal_lbl.*2 →
     evaluate normal_lbl anomDetn = Raise KeyError) ∧
  (∀ anomLbl : list Z,
     0%Z ∈ anomLbl →
     Metrics.vc_getitem anomLbl 0 = Ok (Metrics.value_count anomLbl 0) ∧
     (0 < Metrics.value_count anomLbl 0)%Z) ∧
  (∀ (normal_lbl : list (Z * bool)) (anomDetn : gmap Z bool),
     normal_lbl ≠ [] →
     0%Z ∈ Segmenter.determine_events normal_lbl.*2 →
     ∃ c : Metrics.counts,
       evaluate_counts normal_lbl anomDetn = Ok c ∧
       Metrics.FalseNegatives c
       = (Z.of_nat (length normal_lbl)
          - Metrics.value_count (Segmenter.determine_events normal_lbl.*2) 0
          - Metrics.TruePositives c)%Z).
Proof.
  split; [|split; [|split; [|split]]].
  - intros anomDetns anomDetn anomLbl detected invalid H0.
    split; [by apply confusion_counts_no_zero|].
    unfold Metrics.metrics. by rewrite confusion_counts_no_zero.
  - intros n. rewrite determine_events_segment. simpl.
    rewrite fmap_replicate. simpl.
    by rewrite (segment_from_all_true (0 + 1) n).
  - intros normal_lbl anomDetn Hne H0. by apply evaluate_counts_no_zero.
  - intros anomLbl H0. split; [|by apply value_count_pos].
    unfold Metrics.vc_getitem. by rewrite decide_True.
  - apply evaluate_counts_with_zero.
Qed.

Lemma zero_free_labels_raise_witness :
  evaluate (series [true; false; false]) (frame [false; false; true])
    = Raise KeyError ∧
  ∃ c : Metrics.counts,
    evaluate_counts (series [true; false; true; true])
                    (frame [false; false; true; false]) = Ok c ∧
    Metrics.FalseNegatives c
    = (Z.of_nat (length (series [true; false; true; true]))
       - Metrics.value_count
           (Segmenter.determine_events
              (series [true; false; true; true]).*2) 0
       - Metrics.TruePositives c)%Z.
Proof.
  destruct zero_free_labels_raise as (_ & _ & Hraise & _ & Hok).
  split.
  - apply Hraise; [discriminate|].
    apply (bool_decide_unpack _). vm_compute. exact I.
  - apply Hok; [discriminate|].
    apply (bool_decide_unpack _). vm_compute. exact I.
Defined.

(** * Further properties of the code *)

(** ** Segmenter: length, range and order of the identifiers *)

Section segmenter_more.
Import Segmenter.

Lemma segment_from_flagged rest c cur pv (i : nat) :
  (cur = true → pv = c) →
  (cur :: rest) !! i = Some true →
  segment_from c cur pv rest !! i
  = Some (c + run_starts cur (take i rest))%Z.
Proof.
  revert c cur pv i.
  induction rest as [|nxt rest IH]; intros c cur pv i Hpv Hi.
  - destruct i as [|i]; [|done]. simpl in Hi. injection Hi as ->.
    simpl. rewrite Hpv by done. f_equal. lia.
  - destruct i as [|i].
    + simpl in Hi. injection Hi as ->. simpl.
      rewrite andb_false_r. simpl. rewrite Hpv by done. f_equal. lia.
    + cbn [segment_from take run_starts]. destruct (nxt && negb cur) eqn:E.
      * rewrite lookup_cons_ne_0 by done. simpl.
        rewrite (IH (c + 1)%Z nxt (c + 1)%Z i); [f_equal; lia|done|done].
      * rewrite lookup_cons_ne_0 by done. simpl.
        rewrite (IH c nxt _ i); [f_equal; lia| |done].
        by intros ->.
Qed.

Lemma segment_flagged (flags : list bool) (i : nat) :
  flags !! i = Some true →
  segment flags !! i = Some (final_count (take (S i) flags)).
Proof.
  destruct flags as [|f0 rest]; [done|]. intros Hi. simpl.
  rewrite (segment_from_flagged rest 0 f0 0 i); [f_equal; lia|done|done].
Qed.

Lemma run_starts_after_false (l : list bool) (j : nat) :
  l !! j = Some true → (0 < run_starts false l)%Z.
Proof.
  revert j. induction l as [|nxt l IH]; intros j Hj; [done|].
  simpl. pose proof (run_starts_nonneg nxt l). destruct nxt; simpl; [lia|].
  destruct j as [|j]; [done|]. specialize (IH j Hj). lia.
Qed.

Lemma final_count_positive (flags : list bool) (i : nat) :
  flags !! 0%nat = Some false → flags !! i = Some true →
  (0 < final_count (take (S i) flags))%Z.
Proof.
  destruct flags as [|f0 rest]; [done|]. intros [= ->] Hi.
  destruct i as [|i]; [done|]. simpl in Hi. simpl.
  apply (run_starts_after_false _ i). rewrite lookup_take_lt by lia. done.
Qed.

Lemma nz_mono_weaken (m m' : Z) (l : list Z) :
  (m ≤ m')%Z → nz_mono m' l → nz_mono m l.
Proof.
  revert m m'. induction l as [|x l IH]; intros m m' Hm; [done|].
  simpl. case_decide; [by apply IH|]. intros [? ?]. split; [lia|done].
Qed.

Lemma nz_mono_lookup (m : Z) (l : list Z) (i : nat) (a : Z) :
  nz_mono m l → l !! i = Some a → a ≠ 0%Z →
  (m ≤ a)%Z ∧
  ∀ (j : nat) (b : Z), (i < j)%nat → l !! j = Some b → b ≠ 0%Z → (a ≤ b)%Z.
Proof.
  revert m i a. induction l as [|x l IH]; intros m i a Hl Hi Ha; [done|].
  simpl in Hl. destruct i as [|i].
  - simpl in Hi. injection Hi as ->. rewrite decide_False in Hl by done.
    destruct Hl as [Hm Hl]. split; [done|].
    intros [|j] b Hj Hb Hb0; [lia|]. simpl in Hb.
    by apply (IH a j b Hl Hb Hb0).
  - simpl in Hi. case_decide.
    + destruct (IH m i a Hl Hi Ha) as [? Hlater]. split; [done|].
      intros [|j] b Hj Hb Hb0; [lia|]. simpl in Hb.
      apply (Hlater j b); [lia|done|done].
    + destruct Hl as [Hm Hl].
      destruct (IH x i a Hl Hi Ha) as [? Hlater]. split; [lia|].
      intros [|j] b Hj Hb Hb0; [lia|]. simpl in Hb.
      apply (Hlater j b); [lia|done|done].
Qed.

Lemma foldl_max_bounds (x : Z) (l : list Z) :
  (x ≤ foldl Z.max x l)%Z ∧ Forall (λ v, v ≤ foldl Z.max x l)%Z l.
Proof.
  revert x. induction l as [|y l IH]; intros x; [by split|].
  simpl. destruct (IH (x `max` y)%Z) as [H1 H2]. split; [lia|].
  constructor; [lia|done].
Qed.

Lemma py_max_is (l : list Z) (b : Z) :
  Forall (λ v, v ≤ b)%Z l → b ∈ l → py_max l = Ok b.
Proof.
  intros Hb Hin. destruct l as [|x l]; [by apply elem_of_nil in Hin|].
  simpl. f_equal.
  pose proof (py_max_bound (x :: l) b (foldl Z.max x l) Hb eq_refl) as Hle.
  destruct (foldl_max_bounds x l) as [Hx Hl].
  apply elem_of_cons in Hin as [->|Hin]; [lia|].
  rewrite Forall_forall in Hl. specialize (Hl b Hin). lia.
Qed.

Lemma segment_final_count_in (flags : list bool) :
  final_count flags ∈ segment flags.
Proof.
  destruct (decide (0 < final_count flags)%Z) as [Hpos|Hz].
  - apply segment_contains. lia.
  - pose proof (segment_bounds flags) as Hb.
    destruct (segment flags) as [|x ev] eqn:E.
    + pose proof (segment_length flags) as Hlen. rewrite E in Hlen.
      simpl in Hlen. lia.
    + apply Forall_cons in Hb as [Hx _].
      assert (x = final_count flags) as -> by lia. by left.
Qed.

Lemma run_starts_rise (rest : list bool) (cur : bool) (j : nat) :
  (cur :: rest) !! j = Some false → (cur :: rest) !! S j = Some true →
  (0 < run_starts cur (take (S j) rest))%Z.
Proof.
  revert cur j. induction rest as [|nxt rest IH]; intros cur j Hj HSj; [done|].
  destruct j as [|j].
  - simpl in Hj, HSj. injection Hj as ->. injection HSj as ->. simpl.
    destruct rest; simpl; lia.
  - cbn [take run_starts]. specialize (IH nxt j Hj HSj).
    destruct (nxt && negb cur); lia.
Qed.

Lemma segment_retro_value (flags : list bool) (i : nat) :
  flags !! S i = Some false → flags !! S (S i) = Some true →
  segment flags !! S i = Some (final_count (take (S (S (S i))) flags)) ∧
  (0 < final_count (take (S (S (S i))) flags))%Z.
Proof.
  intros Hi HSi.
  destruct (segment_unflagged flags i Hi) as [Hretro _].
  rewrite (Hretro HSi), (segment_flagged flags (S (S i)) HSi).
  split; [done|].
  destruct flags as [|f0 rest]; [done|].
  apply (run_starts_rise rest f0 (S i) Hi HSi).
Qed.

Lemma final_count_all_true (flags : list bool) :
  Forall (λ f, f = true) flags → final_count flags = 0%Z.
Proof.
  destruct flags as [|f0 rest]; [done|]. intros [-> Hrest]%Forall_cons.
  simpl. induction Hrest as [|nxt rest -> _ IH]; [done|]. simpl. lia.
Qed.

Lemma segment_trailing_value (flags : list bool) (i : nat) :
  flags !! S i = Some false → flags !! S (S i) ≠ Some true →
  flags !! i = Some true →
  segment flags !! S i = Some (final_count (take (S i) flags)) ∧
  segment flags !! S i = segment flags !! i ∧
  (flags !! 0%nat = Some false → (0 < final_count (take (S i) flags))%Z) ∧
  (Forall (λ f, f = true) (take (S i) flags) →
     final_count (take (S i) flags) = 0%Z).
Proof.
  intros HSi Hnext Hi.
  destruct (segment_unflagged flags i HSi) as [_ Hafter].
  destruct (Hafter Hnext) as [Hsame _].
  rewrite (Hsame Hi), (segment_flagged flags i Hi).
  split; [done|]. split; [done|].
  split; [intros H0; by apply final_count_positive|].
  apply final_count_all_true.
Qed.

End segmenter_more.

(** C1 (as amended).  At a position [i >= 1] whose flag is false the
    Segmenter does not always write 0.  The entry is decided by the two
    neighbouring flags.  If the next flag is true (a run starts there),
    the position carries the identifier of that run, which is
    positive.  Otherwise, if the flag before it is false, the entry is
    0.  Otherwise (the flag before it is true) the position repeats the
    entry of that flagged position, which is the counter there: the
    number of places up to there at which a flagged point follows an
    unflagged one.  It is positive whenever the first flag of the
    sequence is false, and 0 when every flag up to there is true, as
    in [T, F, F], which gives [0, 0, 0].  [determine_events], which
    reads the negated flags [normal_lbl], writes the same entries as
    [determine_detections]. *)
Theorem segmenter_unflagged_entry (anomDetn : list bool) (i : nat) :
  anomDetn !! S i = Some false →
  Segmenter.determine_events (negb <$> anomDetn)
    = Segmenter.determine_detections anomDetn ∧
  (anomDetn !! S (S i) = Some true →
     Segmenter.determine_detections anomDetn !! S i
       = Segmenter.determine_detections anomDetn !! S (S i) ∧
     Segmenter.determine_detections anomDetn !! S i
       = Some (Segmenter.final_count (take (S (S (S i))) anomDetn)) ∧
     (0 < Segmenter.final_count (take (S (S (S i))) anomDetn))%Z) ∧
  (anomDetn !! S (S i) ≠ Some true →
     (anomDetn !! i = Some false →
        Segmenter.determine_detections anomDetn !! S i = Some 0%Z) ∧
     (anomDetn !! i = Some true →
        Segmenter.determine_detections anomDetn !! S i
          = Segmenter.determine_detections anomDetn !! i ∧
        Segmenter.determine_detections anomDetn !! S i
          = Some (Segmenter.final_count (take (S i) anomDetn)) ∧
        (anomDetn !! 0%nat = Some false →
           (0 < Segmenter.final_count (take (S i) anomDetn))%Z) ∧
        (Forall (λ f, f = true) (take (S i) anomDetn) →
           Segmenter.final_count (take (S i) anomDetn) = 0%Z))).
Proof.
  intros HSi.
  rewrite determine_events_segment, double_negb, determine_detections_segment.
  split; [done|]. split.
  - intros Hnext.
    destruct (segment_retro_value anomDetn i HSi Hnext) as [Hval Hpos].
    destruct (segment_unflagged anomDetn i HSi) as [Hretro _].
    split; [by apply Hretro|]. by split.
  - intros Hnext.
    destruct (segment_unflagged anomDetn i HSi) as [_ Hafter].
    destruct (Hafter Hnext) as [_ Hzero]. split; [done|].
    intros Hi.
    destruct (segment_trailing_value anomDetn i HSi Hnext Hi)
      as (Hval & Hsame & Hpos & Hnone).
    by repeat split.
Qed.

Lemma segmenter_unflagged_entry_witness :
  Segmenter.determine_detections [false; true; false; false] !! 2%nat
    = Some (Segmenter.final_count (take 2 [false; true; false; false])) ∧
  (0 < Segmenter.final_count (take 2 [false; true; false; false]))%Z ∧
  Segmenter.determine_detections [false; true; false; false] !! 3%nat
    = Some 0%Z.
Proof.
  destruct (segmenter_unflagged_entry [false; true; false; false] 1 eq_refl)
    as (_ & _ & Hafter).
  destruct (segmenter_unflagged_entry [false; true; false; false] 2 eq_refl)
    as (_ & _ & Hlast).
  destruct (Hafter ltac:(discriminate)) as [_ Htrail].
  destruct (Htrail eq_refl) as (_ & Hval & Hpos & _).
  destruct (Hlast ltac:(discriminate)) as [Hzero _].
  split; [exact Hval|]. split; [exact (Hpos eq_refl)|exact (Hzero eq_refl)].
Defined.

(** X1.  Both segmenting routines return one entry per flag; for an
    empty input they still return the single entry 0 that is written
    before the loop, so the result is then longer than the input. *)
Theorem segmenter_length (flags : list bool) :
  length (Segmenter.determine_events flags) = (length flags `max` 1)%nat ∧
  length (Segmenter.determine_detections flags)
    = (length flags `max` 1)%nat ∧
  Segmenter.determine_events [] = [0%Z] ∧
  Segmenter.determine_detections [] = [0%Z].
Proof.
  rewrite determine_events_segment, determine_detections_segment.
  rewrite !segment_length, length_fmap. done.
Qed.

(** X2.  [determine_events] is [determine_detections] on the negated
    column: the two loops of the source compute the same function. *)
Theorem segmenters_agree (normal_lbl : list bool) :
  Segmenter.determine_events normal_lbl
  = Segmenter.determine_detections (negb <$> normal_lbl).
Proof.
  by rewrite determine_events_segment, determine_detections_segment.
Qed.

(** X3.  The identifiers written are exactly [0 .. N], where [N] is
    the number of positions [i >= 1] at which a run starts: no entry is
    negative or above [N], every identifier from 1 to [N] occurs, and
    [max] of the result is [N]. *)
Theorem segmenter_identifiers (flags : list bool) :
  Forall (λ v, 0 ≤ v ≤ Segmenter.final_count flags)%Z
         (Segmenter.determine_detections flags) ∧
  (∀ k : Z, (0 < k ≤ Segmenter.final_count flags)%Z →
            k ∈ Segmenter.determine_detections flags) ∧
  py_max (Segmenter.determine_detections flags)
    = Ok (Segmenter.final_count flags).
Proof.
  rewrite determine_detections_segment.
  split; [apply segment_bounds|]. split; [apply segment_contains|].
  apply py_max_is; [|apply segment_final_count_in].
  eapply Forall_impl; [apply segment_bounds|]. simpl. lia.
Qed.

Lemma segmenter_identifiers_witness :
  2%Z ∈ Segmenter.determine_detections [false; true; false; false; true].
Proof.
  apply (proj1 (proj2 (segmenter_identifiers
                         [false; true; false; false; true])) 2%Z).
  vm_compute. split; [reflexivity|discriminate].
Defined.

(** X4.  The non-zero identifiers never decrease from left to right:
    a later event never carries a smaller identifier than an earlier
    one. *)
Theorem segmenter_monotone (flags : list bool) (i j : nat) (a b : Z) :
  (i < j)%nat →
  Segmenter.determine_detections flags !! i = Some a →
  Segmenter.determine_detections flags !! j = Some b →
  a ≠ 0%Z → b ≠ 0%Z → (a ≤ b)%Z.
Proof.
  rewrite determine_detections_segment. intros Hij Ha Hb Ha0 Hb0.
  destruct (nz_mono_lookup 0 _ i a (segment_nz_mono flags) Ha Ha0) as [_ H].
  by apply (H j b).
Qed.

Lemma segmenter_monotone_witness : (1 ≤ 2)%Z.
Proof.
  apply (segmenter_monotone [false; true; false; false; true] 1 4 1 2).
  - lia.
  - reflexivity.
  - reflexivity.
  - discriminate.
  - discriminate.
Defined.

(** X5.  A flagged position carries the number of runs started up to
    it.  If the first flag is false this number is positive, so every
    flagged point belongs to an event; a flagged point gets 0 only
    inside a run that starts at position 0. *)
Theorem segmenter_flagged_entry (flags : list bool) (i : nat) :
  flags !! i = Some true →
  Segmenter.determine_detections flags !! i
    = Some (Segmenter.final_count (take (S i) flags)) ∧
  (flags !! 0%nat = Some false →
     (0 < Segmenter.final_count (take (S i) flags))%Z) ∧
  (Forall (λ f, f = true) (take (S i) flags) →
     Segmenter.final_count (take (S i) flags) = 0%Z).
Proof.
  intros Hi. rewrite determine_detections_segment.
  split; [by apply segment_flagged|].
  split; [intros H0; by apply final_count_positive|].
  apply final_count_all_true.
Qed.

Lemma segmenter_flagged_entry_witness :
  Segmenter.determine_detections [false; true; false; true] !! 3%nat
    = Some (Segmenter.final_count (take 4 [false; true; false; true])).
Proof.
  apply (segmenter_flagged_entry [false; true; false; true] 3).
  reflexivity.
Defined.

(** ** Matcher on arbitrary columns *)

Section matcher_more.
Import Matcher.

Lemma compare_step_shift (A : list Z) (f : bool) (F : list bool) (D : list Z)
    st (i : nat) :
  compare_step A (f :: F) D st (S i) = compare_step (tail A) F (tail D) st i.
Proof. by destruct A, D. Qed.

Lemma for_in_ext {S I : Type} (f g : S → I → result S) (st : S) (l : list I) :
  (∀ s i, f s i = g s i) → for_in f st l = for_in g st l.
Proof.
  intros Hfg. revert st. induction l as [|x l IH]; intros st; [done|].
  simpl. rewrite Hfg. destruct (g st x); simpl; [apply IH|done].
Qed.

Lemma compare_loop_cons (A : list Z) (f : bool) (F : list bool) (D : list Z) st :
  for_in (compare_step A (f :: F) D) st (seq 0 (length (f :: F)))
  = st' ← compare_step A (f :: F) D st 0;
    for_in (compare_step (tail A) F (tail D)) st' (seq 0 (length F)).
Proof.
  cbn [length seq for_in].
  destruct (compare_step A (f :: F) D st 0) as [st'|e]; [|done]. simpl.
  rewrite <- fmap_S_seq, for_in_fmap.
  apply for_in_ext. intros s i. apply compare_step_shift.
Qed.

(** One iteration either raises [IndexError] or leaves two non-empty
    lists. *)
Lemma compare_step_outcome A F D st (i : nat) :
  st.1 ≠ [] → st.2 ≠ [] →
  compare_step A F D st i = Raise IndexError ∨
  ∃ st', compare_step A F D st i = Ok st' ∧ st'.1 ≠ [] ∧ st'.2 ≠ [].
Proof.
  intros H1 H2. destruct st as [da vd]. unfold compare_step, getitem.
  simpl in *.
  destruct (F !! i) as [[]|]; simpl; [|right; by eexists|by left].
  destruct (A !! i) as [a|]; simpl; [|by left].
  case_decide; [|right; by eexists].
  rewrite (append_new_ok da) by done. simpl.
  destruct (D !! i) as [d|]; simpl; [|by left].
  rewrite (append_new_ok vd) by done. simpl.
  right. eexists. split; [done|]. simpl.
  split; case_decide; try done; by intros [_ ?]%app_nil.
Qed.

Lemma compare_loop_unflagged (A D : list Z) (n : nat) st :
  for_in (compare_step A (replicate n false) D) st (seq 0 n) = Ok st.
Proof.
  revert A D. induction n as [|n IH]; intros A D; [done|].
  cbn [replicate].
  replace (seq 0 (S n)) with (seq 0 (length (false :: replicate n false)))
    by (simpl; by rewrite length_replicate).
  rewrite compare_loop_cons, length_replicate.
  assert (compare_step A (false :: replicate n false) D st 0 = Ok st) as ->.
  { by destruct st. }
  simpl. apply IH.
Qed.

Lemma compare_loop_raises (F : list bool) (A D : list Z) st :
  st.1 ≠ [] → st.2 ≠ [] →
  (∃ i : nat, F !! i = Some true ∧
     (A !! i = None ∨ ∃ a : Z, A !! i = Some a ∧ a ≠ 0%Z ∧ D !! i = None)) →
  for_in (compare_step A F D) st (seq 0 (length F)) = Raise IndexError.
Proof.
  revert A D st. induction F as [|f F IH]; intros A D st H1 H2 (i & Hi & Hbad).
  { done. }
  rewrite compare_loop_cons.
  destruct (compare_step_outcome A (f :: F) D st 0 H1 H2)
    as [->|(st' & Hst & H1' & H2')]; [done|].
  rewrite Hst. simpl. apply IH; [done|done|].
  destruct i as [|i].
  - exfalso. simpl in Hi. injection Hi as ->.
    destruct st as [da vd]. unfold compare_step, getitem in Hst.
    simpl in Hst.
    destruct Hbad as [Hnone|(a & Ha & Ha0 & Hd)].
    + by rewrite Hnone in Hst.
    + rewrite Ha in Hst. simpl in Hst.
      rewrite decide_True in Hst by done.
      rewrite (append_new_ok da) in Hst by done. simpl in Hst.
      by rewrite Hd in Hst.
  - exists i. split; [done|].
    destruct A as [|a0 A], D as [|d0 D]; simpl in *;
      destruct Hbad as [?|(a & ? & ? & ?)]; eauto 6.
Qed.

Lemma no_adjacent_repeat_snoc (l : list Z) (x : Z) :
  no_adjacent_repeat l → last l ≠ Some x → no_adjacent_repeat (l ++ [x]).
Proof.
  intros Hl Hlast i y Hi Hnext.
  destruct (decide (S i < length l)%nat) as [Hin|Hout].
  - rewrite lookup_app_l in Hi by lia. rewrite lookup_app_l in Hnext by lia.
    by apply (Hl i y).
  - apply lookup_lt_Some in Hnext as Hlt. rewrite length_app in Hlt.
    simpl in Hlt. assert (S i = length l) as Hi' by lia.
    rewrite lookup_app_l in Hi by lia.
    rewrite lookup_app_r in Hnext by lia.
    replace (S i - length l)%nat with 0%nat in Hnext by lia.
    simpl in Hnext. injection Hnext as ->.
    apply Hlast. rewrite last_lookup. rewrite <- Hi. f_equal. lia.
Qed.

Lemma match_from_no_adjacent (F : list bool) (A D : list Z) st :
  no_adjacent_repeat st.1 → no_adjacent_repeat st.2 →
  no_adjacent_repeat (match_from st F A D).1 ∧
  no_adjacent_repeat (match_from st F A D).2.
Proof.
  revert A D st. induction F as [|f F IH]; intros A D st N1 N2; [done|].
  destruct A as [|a A], D as [|d D]; try done. cbn [match_from].
  apply IH; unfold match_row; destruct f; try done;
    case_decide; try done; simpl; case_decide; try done;
    by apply no_adjacent_repeat_snoc.
Qed.

Lemma match_from_appended (F : list bool) (A D : list Z) st :
  ∃ r1 r2 : list Z,
    match_from st F A D = (st.1 ++ r1, st.2 ++ r2) ∧
    (∀ x, x ∈ r1 →
       x ≠ 0%Z ∧ ∃ i, F !! i = Some true ∧ A !! i = Some x) ∧
    (∀ y, y ∈ r2 →
       ∃ i a, F !! i = Some true ∧ A !! i = Some a ∧ a ≠ 0%Z ∧
              D !! i = Some y).
Proof.
  revert A D st. induction F as [|f F IH]; intros A D st.
  { exists [], []. rewrite !app_nil_r. simpl.
    split; [by destruct st, A, D|]. split; by intros ? ?%elem_of_nil. }
  destruct A as [|a A], D as [|d D];
    try (exists [], []; rewrite !app_nil_r; simpl;
         split; [by destruct st|]; split; by intros ? ?%elem_of_nil).
  cbn [match_from].
  destruct (IH A D (match_row st f a d)) as (r1 & r2 & E & M1 & M2).
  assert (∃ h1 h2 : list Z,
            match_row st f a d = (st.1 ++ h1, st.2 ++ h2) ∧
            (∀ x, x ∈ h1 → f = true ∧ a ≠ 0%Z ∧ x = a) ∧
            (∀ y, y ∈ h2 → f = true ∧ a ≠ 0%Z ∧ y = d))
    as (h1 & h2 & Erow & Hh1 & Hh2).
  { unfold match_row. destruct f.
    - case_decide as Ha.
      + exists (if decide (last st.1 = Some a) then [] else [a]),
               (if decide (last st.2 = Some d) then [] else [d]).
        split; [|split].
        * f_equal; case_decide; by rewrite ?app_nil_r.
        * intros x. case_decide; [by intros ?%elem_of_nil|].
          intros ->%list_elem_of_singleton. by repeat split.
        * intros y. case_decide; [by intros ?%elem_of_nil|].
          intros ->%list_elem_of_singleton. by repeat split.
      + exists [], []. rewrite !app_nil_r.
        split; [by destruct st|]. split; by intros ? ?%elem_of_nil.
    - exists [], []. rewrite !app_nil_r.
      split; [by destruct st|]. split; by intros ? ?%elem_of_nil. }
  rewrite Erow in E |- *. simpl in E.
  exists (h1 ++ r1), (h2 ++ r2). split; [by rewrite E, <- !app_assoc|].
  split.
  - intros x [Hx|Hx]%elem_of_app.
    + destruct (Hh1 x Hx) as (-> & ? & ->). split; [done|]. by exists 0%nat.
    + destruct (M1 x Hx) as (? & i & ? & ?). split; [done|]. by exists (S i).
  - intros y [Hy|Hy]%elem_of_app.
    + destruct (Hh2 y Hy) as (-> & ? & ->). by exists 0%nat, a.
    + destruct (M2 y Hy) as (i & a' & ? & ? & ? & ?). by exists (S i), a'.
Qed.

Lemma no_adjacent_repeat_tail (x : Z) (l : list Z) :
  no_adjacent_repeat (x :: l) → no_adjacent_repeat l.
Proof. intros H i y Hi. by apply (H (S i) y). Qed.

Lemma compare_contract (A : list Z) (F : list bool) (D : list Z) :
  length A = length F → length D = length F →
  ∃ detected valid : list Z,
    compare_lbl_detns A F D = Ok (D, detected, valid) ∧
    (∀ x : Z, x ∈ detected ↔
       x ≠ 0%Z ∧ ∃ i : nat, F !! i = Some true ∧ A !! i = Some x) ∧
    (∀ y : Z, y ∈ valid →
       ∃ (i : nat) (a : Z), F !! i = Some true ∧ A !! i = Some a ∧
                            a ≠ 0%Z ∧ D !! i = Some y) ∧
    (∀ (y : Z) (i : nat) (a : Z),
       y ≠ 0%Z → F !! i = Some true → A !! i = Some a → a ≠ 0%Z →
       D !! i = Some y → y ∈ valid) ∧
    no_adjacent_repeat detected ∧ no_adjacent_repeat valid.
Proof.
  intros HA HD.
  destruct (match_from_appended F A D ([0%Z], [0%Z])) as (r1 & r2 & E & M1 & M2).
  destruct (match_from_elem F A D ([0%Z], [0%Z]) HA HD) as [I1 I2].
  destruct (match_from_no_adjacent F A D ([0%Z], [0%Z])) as [N1 N2];
    [by intros [|?] ? ? ?..|].
  rewrite E in I1, I2, N1, N2. simpl in *.
  exists r1, r2. split; [|split; [|split; [|split; [|split]]]].
  - rewrite compare_lbl_detns_ok by done. by rewrite E.
  - intros x. split; [apply M1|].
    intros (Hx0 & i & Hf & Ha).
    assert (x ∈ 0%Z :: r1) as Hin by (apply I1; right; by exists i).
    by apply elem_of_cons in Hin as [?|?].
  - apply M2.
  - intros y i a Hy0 Hf Ha Ha0 Hd.
    assert (y ∈ 0%Z :: r2) as Hin by (apply I2; right; by exists i, a).
    by apply elem_of_cons in Hin as [?|?].
  - by apply (no_adjacent_repeat_tail 0).
  - by apply (no_adjacent_repeat_tail 0).
Qed.

End matcher_more.

(** X6.  On any three columns of one length [compare_lbl_detns]
    returns without raising and hands the detection events back
    unchanged.  [detected_anomalies] holds exactly the non-zero label
    events found at flagged positions, so never 0; every entry of
    [valid_detections] is the detection event of such a position, and
    every non-zero one of them is recorded.  Neither list repeats an
    entry directly after itself. *)
Theorem compare_lbl_detns_contract (anomLbl : list Z) (anomDetn : list bool)
    (anomDetns : list Z) :
  length anomLbl = length anomDetn → length anomDetns = length anomDetn →
  ∃ detected valid : list Z,
    Matcher.compare_lbl_detns anomLbl anomDetn anomDetns
      = Ok (anomDetns, detected, valid) ∧
    (∀ x : Z, x ∈ detected ↔
       x ≠ 0%Z ∧
       ∃ i : nat, anomDetn !! i = Some true ∧ anomLbl !! i = Some x) ∧
    (∀ y : Z, y ∈ valid →
       ∃ (i : nat) (a : Z),
         anomDetn !! i = Some true ∧ anomLbl !! i = Some a ∧ a ≠ 0%Z ∧
         anomDetns !! i = Some y) ∧
    (∀ (y : Z) (i : nat) (a : Z),
       y ≠ 0%Z → anomDetn !! i = Some true → anomLbl !! i = Some a →
       a ≠ 0%Z → anomDetns !! i = Some y → y ∈ valid) ∧
    no_adjacent_repeat detected ∧ no_adjacent_repeat valid.
Proof. apply compare_contract. Qed.

Lemma compare_lbl_detns_contract_witness :
  ∃ detected valid : list Z,
    Matcher.compare_lbl_detns [1; 2; 1]%Z [true; true; true] [3; 3; 4]%Z
      = Ok ([3; 3; 4]%Z, detected, valid) ∧
    no_adjacent_repeat detected ∧ no_adjacent_repeat valid.
Proof.
  destruct (compare_lbl_detns_contract
              [1; 2; 1]%Z [true; true; true] [3; 3; 4]%Z)
    as (da & vd & Hrun & _ & _ & _ & N1 & N2).
  - reflexivity.
  - reflexivity.
  - exists da, vd. split; [exact Hrun|]. split; [exact N1|exact N2].
Defined.

(** X7.  The label and event columns are read only at flagged
    positions: with no flag set the call returns two empty lists
    whatever the other two columns hold, even if they are shorter than
    the flag column. *)
Theorem compare_lbl_detns_unflagged (anomLbl anomDetns : list Z) (n : nat) :
  Matcher.compare_lbl_detns anomLbl (replicate n false) anomDetns
  = Ok (anomDetns, [], []).
Proof.
  unfold Matcher.compare_lbl_detns. rewrite length_replicate.
  by rewrite compare_loop_unflagged.
Qed.

(** X8.  If some flagged position has no label entry, or has a
    non-zero label entry but no detection event entry, the call raises
    [IndexError]: columns shorter than the flag column are not
    tolerated once a flagged position reaches beyond them. *)
Theorem compare_lbl_detns_short_column (anomLbl : list Z)
    (anomDetn : list bool) (anomDetns : list Z) (i : nat) :
  anomDetn !! i = Some true →
  anomLbl !! i = None ∨
    (∃ a : Z, anomLbl !! i = Some a ∧ a ≠ 0%Z ∧ anomDetns !! i = None) →
  Matcher.compare_lbl_detns anomLbl anomDetn anomDetns = Raise IndexError.
Proof.
  intros Hi Hbad. unfold Matcher.compare_lbl_detns.
  rewrite compare_loop_raises; [done|done|done|]. by exists i.
Qed.

Lemma compare_lbl_detns_short_column_witness :
  Matcher.compare_lbl_detns [1%Z] [false; true] [1; 1]%Z = Raise IndexError.
Proof.
  apply (compare_lbl_detns_short_column [1%Z] [false; true] [1; 1]%Z 1).
  - reflexivity.
  - left. reflexivity.
Defined.

(** ** Classifier: what the loop of [false_detections] reports *)

Section classifier_more.
Import Classifier.

Lemma sorted_seqZ (a : Z) (len : nat) :
  StronglySorted Z.lt (seqZ a (Z.of_nat len)).
Proof.
  revert a. induction len as [|len IH]; intros a; [constructor|].
  rewrite seqZ_cons by lia.
  replace (Z.pred (Z.of_nat (S len))) with (Z.of_nat len) by lia.
  constructor; [apply IH|]. apply Forall_seqZ. intros. lia.
Qed.

Lemma sorted_remove_middle (l1 l2 : list Z) (x : Z) :
  StronglySorted Z.lt (l1 ++ x :: l2) → StronglySorted Z.lt (l1 ++ l2).
Proof.
  rewrite !StronglySorted_app, StronglySorted_cons.
  intros (Hcross & H1 & _ & H2). split; [|done].
  intros y z Hy Hz. apply Hcross; [done|by right].
Qed.

Lemma filter_none {A : Type} (P : A → Prop) `{!∀ x, Decision (P x)}
    (l : list A) :
  Forall (λ x, ¬ P x) l → filter P l = [].
Proof.
  induction 1 as [|x l Hx _ IH]; [done|]. by rewrite filter_cons_False.
Qed.

Lemma false_loop_sorted (valid ids inv : list Z) (k : nat) :
  StronglySorted Z.lt (inv ++ ids) →
  StronglySorted Z.lt (foldl (false_step valid) (inv, k) ids).1.
Proof.
  revert inv k. induction ids as [|i ids IH]; intros inv k Hs.
  - by rewrite app_nil_r in Hs.
  - simpl. repeat case_decide; apply IH.
    + by apply sorted_remove_middle in Hs.
    + by rewrite <- app_assoc.
    + by apply sorted_remove_middle in Hs.
Qed.

(** The loop on a strictly increasing list of positive valid
    detections.  [vdone] are the valid detections already passed, all
    below the next identifier [a]; [vrest] are those still ahead. *)
Lemma false_loop_sorted_valid (vdone vrest inv : list Z) (a : Z) (len : nat) :
  StronglySorted Z.lt (vdone ++ vrest) →
  Forall (λ v, v < a)%Z vdone → Forall (λ v, a ≤ v)%Z vrest →
  (foldl (false_step (vdone ++ vrest)) (inv, length vdone)
         (seqZ a (Z.of_nat len))).1
  = inv ++ filter (λ i, (i ∉ vdone ++ vrest) ∧
                        Exists (λ v, i < v)%Z (vdone ++ vrest))
                  (seqZ a (Z.of_nat len)).
Proof.
  revert vdone vrest inv a.
  induction len as [|len IH]; intros vdone vrest inv a Hs Hdone Hrest.
  { simpl. by rewrite app_nil_r. }
  rewrite seqZ_cons by lia.
  replace (Z.pred (Z.of_nat (S len))) with (Z.of_nat len) by lia.
  cbn [foldl]. unfold false_step at 2.
  destruct vrest as [|v vrest].
  - rewrite app_nil_r in *. rewrite decide_False by lia.
    rewrite false_loop_exhausted by lia. simpl.
    rewrite filter_none; [by rewrite app_nil_r|].
    apply Forall_forall. intros i Hi [_ Hex].
    apply Exists_exists in Hex as (w & Hw & Hlt).
    rewrite Forall_forall in Hdone. specialize (Hdone w Hw).
    apply elem_of_cons in Hi as [->|Hi]; [lia|].
    apply elem_of_seqZ in Hi. lia.
  - rewrite decide_True by (rewrite length_app; simpl; lia).
    rewrite list_lookup_middle by done.
    apply Forall_cons in Hrest as [Hv Hrest].
    assert (Forall (λ w, v < w)%Z vrest) as Hgt.
    { apply StronglySorted_app in Hs as (_ & _ & Hs).
      by apply StronglySorted_cons in Hs as [? _]. }
    destruct (decide (Some a = Some v)) as [[= <-]|Hne].
    + rewrite filter_cons_False.
      2:{ intros [Hnin _]. apply Hnin. apply elem_of_app. right. by left. }
      specialize (IH (vdone ++ [a]) vrest inv (Z.succ a)).
      rewrite <- app_assoc in IH. simpl in IH.
      rewrite length_app in IH. simpl in IH.
      replace (length vdone + 1)%nat with (S (length vdone)) in IH by lia.
      apply IH; [done| |].
      * apply Forall_app. split; [|repeat constructor; lia].
        eapply Forall_impl; [done|]. simpl. lia.
      * eapply Forall_impl; [done|]. simpl. lia.
    + assert (a < v)%Z as Hav by (assert (a ≠ v) by congruence; lia).
      rewrite filter_cons_True.
      2:{ split.
          - intros [Hin|Hin]%elem_of_app.
            + rewrite Forall_forall in Hdone. specialize (Hdone a Hin). lia.
            + apply elem_of_cons in Hin as [->|Hin]; [lia|].
              rewrite Forall_forall in Hgt. specialize (Hgt a Hin). lia.
          - apply Exists_exists. exists v. split; [|done].
            apply elem_of_app. right. by left. }
      rewrite (IH vdone (v :: vrest) (inv ++ [a]) (Z.succ a)); [| done | |].
      * by rewrite <- app_assoc.
      * eapply Forall_impl; [done|]. simpl. lia.
      * constructor; [lia|]. eapply Forall_impl; [done|]. simpl. lia.
Qed.

Lemma false_detections_sorted_valid (anomDetns valid : list Z) (m : Z) :
  StronglySorted Z.lt valid → Forall (λ v, 0 < v)%Z valid →
  py_max anomDetns = Ok m →
  false_detections anomDetns valid
  = Ok (filter (λ i, (i ∉ valid) ∧ Exists (λ v, i < v)%Z valid)
               (seqZ 1 (m - 1))).
Proof.
  intros Hs Hpos Hm. unfold false_detections. rewrite Hm. simpl. f_equal.
  rewrite (seqZ_to_nat 1 (m - 1)).
  rewrite (false_loop_sorted_valid [] valid [] 1); [done|done|done|].
  eapply Forall_impl; [done|]. simpl. lia.
Qed.

Lemma false_detections_outcome (anomDetns valid : list Z) :
  match anomDetns with
  | [] => false_detections anomDetns valid = Raise ValueError
  | d :: rest =>
      ∃ invalid : list Z,
        false_detections anomDetns valid = Ok invalid ∧
        Forall (λ i, 1 ≤ i < foldl Z.max d rest)%Z invalid ∧
        StronglySorted Z.lt invalid
  end.
Proof.
  destruct anomDetns as [|d rest]; [done|].
  unfold false_detections. simpl. eexists. split; [done|]. split.
  - apply false_loop_range; [done|]. apply Forall_seqZ. intros. lia.
  - apply false_loop_sorted. simpl. rewrite (seqZ_to_nat 1).
    apply sorted_seqZ.
Qed.

End classifier_more.

(** X9.  [false_detections] raises [ValueError] on an empty event
    column (the [max] of nothing).  On any other input it returns a
    strictly increasing list of identifiers between 1 and one less
    than the largest event identifier: the largest identifier itself
    is never reported. *)
Theorem false_detections_range_sorted (anomDetns valid : list Z) :
  match anomDetns with
  | [] => Classifier.false_detections anomDetns valid = Raise ValueError
  | d :: rest =>
      ∃ invalid : list Z,
        Classifier.false_detections anomDetns valid = Ok invalid ∧
        Forall (λ i, 1 ≤ i < foldl Z.max d rest)%Z invalid ∧
        StronglySorted Z.lt invalid
  end.
Proof. apply false_detections_outcome. Qed.

(** X10.  When [valid_detections] is strictly increasing and positive,
    as the Matcher leaves it, [false_detections] returns exactly the
    identifiers [i] of [1 .. max - 1] that are not valid and lie below
    some valid detection.  So it never reports a valid detection, and
    it reports no identifier above the last valid one. *)
Theorem false_detections_below_last_valid (anomDetns valid : list Z) (m : Z) :
  StronglySorted Z.lt valid → Forall (λ v, 0 < v)%Z valid →
  py_max anomDetns = Ok m →
  Classifier.false_detections anomDetns valid
  = Ok (filter (λ i, (i ∉ valid) ∧ Exists (λ v, i < v)%Z valid)
               (seqZ 1 (m - 1))).
Proof. apply false_detections_sorted_valid. Qed.

Lemma false_detections_below_last_valid_witness :
  Classifier.false_detections [0; 1; 1; 2; 2; 3; 3; 4; 4]%Z [2; 3]%Z
  = Ok (filter (λ i, (i ∉ [2; 3]%Z) ∧ Exists (λ v, i < v)%Z [2; 3]%Z)
               (seqZ 1 (4 - 1))).
Proof.
  apply (false_detections_below_last_valid
           [0; 1; 1; 2; 2; 3; 3; 4; 4]%Z [2; 3]%Z 4).
  - repeat constructor.
  - repeat constructor.
  - reflexivity.
Defined.

(** ** Aligner and [windowing] on any detection frame *)

Section windowing_more.
Import Segmenter Matcher Classifier Aligner Metrics.

Lemma align_ext (d1 d2 : gmap Z bool) (index : list Z) :
  (∀ t : Z, t ∈ index → d1 !! t = d2 !! t) →
  align d1 index = align d2 index.
Proof.
  intros Hsame. unfold align, fill_null, reindex. f_equal.
  apply list_fmap_ext. intros j t Hj. apply Hsame.
  by eapply list_elem_of_lookup_2.
Qed.

Lemma windowing_through_align (normal_lbl : list (Z * bool))
    (d1 d2 : gmap Z bool) :
  align d1 normal_lbl.*1 = align d2 normal_lbl.*1 →
  windowing normal_lbl d1 = windowing normal_lbl d2 ∧
  evaluate normal_lbl d1 = evaluate normal_lbl d2.
Proof.
  intros E. unfold evaluate, windowing. by rewrite E.
Qed.

Lemma align_zip (index : list Z) (values : list bool) :
  NoDup index → length values = length index →
  align (list_to_map (zip index values)) index = values.
Proof.
  intros Hnd Hlen. apply list_eq. intros j.
  unfold align, fill_null, reindex. rewrite !list_lookup_fmap.
  destruct (index !! j) as [t|] eqn:Ht; simpl.
  - destruct (values !! j) as [b|] eqn:Hb.
    + assert ((t, b) ∈ zip index values) as Hin.
      { apply list_elem_of_lookup. exists j.
        apply lookup_zip_with_Some. by exists t, b. }
      assert (NoDup (zip index values).*1) as Hfst
        by (rewrite fst_zip by lia; done).
      by rewrite (elem_of_list_to_map_1 _ _ _ Hfst Hin).
    + apply lookup_lt_Some in Ht. apply lookup_ge_None in Hb. lia.
  - apply lookup_ge_None in Ht. symmetry. apply lookup_ge_None. lia.
Qed.

Lemma align_empty (index : list Z) :
  align ∅ index = replicate (length index) true.
Proof.
  unfold align, fill_null, reindex.
  induction index as [|t index IH]; [done|].
  rewrite !fmap_cons, IH. done.
Qed.

Lemma sorted_lt_ext (l1 l2 : list Z) :
  StronglySorted Z.lt l1 → StronglySorted Z.lt l2 →
  (∀ x, x ∈ l1 ↔ x ∈ l2) → l1 = l2.
Proof.
  intros S1 S2 Hsame.
  apply (StronglySorted_unique_strong Z.lt); [|done|done|].
  - intros x1 x2 _ _ ? ?. lia.
  - apply NoDup_Permutation; auto using sorted_lt_NoDup.
Qed.

Lemma windowing_all_flagged (normal_lbl : list (Z * bool))
    (anomDetn : gmap Z bool) :
  normal_lbl ≠ [] →
  align anomDetn normal_lbl.*1 = replicate (length normal_lbl) true →
  windowing normal_lbl anomDetn
  = Ok (determine_events normal_lbl.*2,
        replicate (length normal_lbl) true,
        replicate (length normal_lbl) 0%Z,
        seqZ 1 (final_count (negb <$> normal_lbl.*2)), []).
Proof.
  intros Hne Hall.
  destruct (windowing_ok normal_lbl anomDetn Hne)
    as (da & vd & inv & Hw & Hmatch & Hinv & _ & _ & _ & _ & Hlen).
  destruct (series_nonempty_lengths normal_lbl Hne) as [Hpos Hlen2].
  rewrite length_fmap in Hpos.
  destruct (compare_on_segments normal_lbl.*2
              (replicate (length normal_lbl) true))
    as (da' & vd' & _ & Hmatch' & Hda & Hvd & Sda & _);
    [by rewrite length_replicate, length_fmap|by rewrite length_replicate|].
  rewrite Hall in *. rewrite Hmatch in Hmatch'.
  injection Hmatch' as <- <-.
  rewrite determine_detections_segment, segment_replicate in *.
  replace (length normal_lbl `max` 1)%nat with (length normal_lbl) in * by lia.
  assert (vd = []) as ->.
  { destruct vd as [|y vd]; [done|]. exfalso.
    destruct (proj1 (Hvd y)) as (Hy0 & i & a & _ & _ & _ & Hy); [by left|].
    apply lookup_replicate in Hy as [-> _]. done. }
  assert (da = seqZ 1 (final_count (negb <$> normal_lbl.*2))) as ->.
  { apply sorted_lt_ext; [done| |].
    - rewrite (seqZ_to_nat 1). apply sorted_seqZ.
    - intros x. rewrite Hda, determine_events_segment, elem_of_seqZ. split.
      + intros (i & _ & Hx & Hx0).
        pose proof (segment_bounds (negb <$> normal_lbl.*2)) as Hb.
        rewrite Forall_forall in Hb.
        specialize (Hb x (list_elem_of_lookup_2 _ _ _ Hx)). lia.
      + intros Hx.
        assert (x ∈ segment (negb <$> normal_lbl.*2)) as Hin
          by (apply segment_contains; lia).
        apply list_elem_of_lookup in Hin as [i Hi]. exists i.
        split; [|split; [done|lia]].
        apply lookup_replicate. split; [done|].
        apply lookup_lt_Some in Hi.
        rewrite segment_length, !length_fmap in Hi. lia. }
  rewrite false_detections_none_valid in Hinv
    by (by destruct normal_lbl).
  by injection Hinv as <-.
Qed.

Lemma counts_all_flagged (normal_lbl : list (Z * bool))
    (anomDetn : gmap Z bool) :
  normal_lbl ≠ [] →
  align anomDetn normal_lbl.*1 = replicate (length normal_lbl) true →
  0%Z ∈ determine_events normal_lbl.*2 →
  evaluate_counts normal_lbl anomDetn
  = Ok (Counts
          (Z.of_nat (length (filter (λ v, v ≠ 0%Z)
                                    (determine_events normal_lbl.*2))))
          0 0
          (value_count (determine_events normal_lbl.*2) 0)).
Proof.
  intros Hne Hall H0.
  unfold evaluate_counts. rewrite windowing_all_flagged by done. simpl.
  set (F := negb <$> normal_lbl.*2).
  assert (Forall (λ v, v ∈ determine_events normal_lbl.*2)
                 (seqZ 1 (final_count F))) as Hin.
  { apply Forall_forall. intros x Hx%elem_of_seqZ.
    rewrite determine_events_segment. apply segment_contains.
    unfold F in Hx. lia. }
  rewrite confusion_counts_ok by (done || by constructor).
  rewrite sum_counts_NoDup by apply NoDup_seqZ.
  rewrite determine_events_segment in *. fold F in H0 |- *.
  assert (0%Z ∉ seqZ 1 (final_count F)) as Hz.
  { intros ?%elem_of_seqZ. lia. }
  pose proof (count_zero_and_keys (segment F) _ Hz (segment_zero_or_id F)) as Hc.
  pose proof (count_nonzero (segment F)) as Hnz.
  pose proof (segment_length F) as Hlen.
  unfold F in Hlen at 2. rewrite !length_fmap in Hlen.
  rewrite length_replicate.
  assert (0 < length normal_lbl)%nat by (destruct normal_lbl; [done|simpl; lia]).
  change (py_sum (value_count ?s <$> [])) with 0%Z.
  f_equal. f_equal; lia.
Qed.

End windowing_more.

(** X11.  The inputs here are a label series that is indexed by time
    stamps, so that [normal_lbl[i]] reads it by position, and a
    detection frame that holds at most one row for a time stamp.  On
    such inputs [windowing] raises [ValueError] when the label series
    is empty; when it is not empty [windowing] returns, the three
    columns it returns have one entry per label row, the detected
    anomalies are distinct non-zero label events and every reported
    invalid detection is an identifier of the detection events. *)
Theorem windowing_outcome (normal_lbl : list (Z * bool))
    (anomDetn : gmap Z bool) :
  match normal_lbl with
  | [] => windowing normal_lbl anomDetn = Raise ValueError
  | _ :: _ =>
      ∃ anomLbl aligned anomDetns detected invalid,
        windowing normal_lbl anomDetn
          = Ok (anomLbl, aligned, anomDetns, detected, invalid) ∧
        length anomLbl = length normal_lbl ∧
        length aligned = length normal_lbl ∧
        length anomDetns = length normal_lbl ∧
        NoDup detected ∧
        Forall (λ v, v ≠ 0%Z ∧ v ∈ anomLbl) detected ∧
        Forall (λ v, v ∈ anomDetns) invalid
  end.
Proof.
  destruct normal_lbl as [|row rows] eqn:E; [done|]. rewrite <- E.
  assert (normal_lbl ≠ []) as Hne by (by rewrite E).
  destruct (windowing_ok normal_lbl anomDetn Hne)
    as (da & vd & inv & Hw & _ & _ & Hda & Nda & Hz & Hin & Hlen).
  destruct (series_nonempty_lengths normal_lbl Hne) as [Hpos Hlen2].
  destruct (segment_lengths normal_lbl.*2
              (Aligner.align anomDetn normal_lbl.*1)) as [HA HD];
    [by rewrite align_length|by rewrite align_length|].
  rewrite align_length, length_fmap in HA, HD.
  eexists _, _, _, da, inv. split; [exact Hw|].
  split; [done|]. split; [by rewrite align_length, length_fmap|].
  split; [done|]. split; [done|]. split; [|done].
  rewrite Forall_forall in Hda |- *. intros x Hx. split; [|by apply Hda].
  by intros ->.
Qed.

(** X12.  [windowing] and the whole evaluation read the detection
    frame only at the time stamps of the label series: two frames
    that agree there give the same result, so detection rows at other
    time stamps are dropped without any error. *)
Theorem windowing_ignores_other_rows (normal_lbl : list (Z * bool))
    (d1 d2 : gmap Z bool) :
  (∀ t : Z, t ∈ normal_lbl.*1 → d1 !! t = d2 !! t) →
  windowing normal_lbl d1 = windowing normal_lbl d2 ∧
  evaluate normal_lbl d1 = evaluate normal_lbl d2.
Proof. intros H. by apply windowing_through_align, align_ext. Qed.

Lemma windowing_ignores_other_rows_witness :
  windowing (series [true; false; true])
            (<[7%Z := true]> (frame [false; true; false]))
  = windowing (series [true; false; true]) (frame [false; true; false]).
Proof.
  apply (windowing_ignores_other_rows (series [true; false; true])
           (<[7%Z := true]> (frame [false; true; false]))
           (frame [false; true; false])).
  intros t Ht. apply lookup_insert_ne. intros <-.
  revert Ht. apply (bool_decide_unpack _). vm_compute. exact I.
Defined.

(** X13.  A detection frame given on a duplicate-free index passes
    through the alignment unchanged when that index is also the
    reference index. *)
Theorem align_same_index (index : list Z) (values : list bool) :
  NoDup index → length values = length index →
  Aligner.align (list_to_map (zip index values)) index = values.
Proof. apply align_zip. Qed.

Lemma align_same_index_witness :
  Aligner.align (list_to_map (zip [3; 5; 8]%Z [false; true; false]))
                [3; 5; 8]%Z
  = [false; true; false].
Proof.
  apply (align_same_index [3; 5; 8]%Z [false; true; false]).
  - apply (bool_decide_unpack _). vm_compute. exact I.
  - reflexivity.
Defined.

(** X14.  When the aligned detection flags are all true, as they are
    for a detection frame without rows, the detection events are all
    0 because the run starts at position 0.  Every label event is then
    recorded as detected and no detection is valid or invalid.  If
    some label event is 0 the counts are [FalseNegatives = 0] and
    [FalsePositives = 0] with every point of a label event a true
    positive; if no label event is 0 there are no counts, the roll-up
    raises [KeyError]. *)
Theorem all_flagged_counts (normal_lbl : list (Z * bool))
    (anomDetn : gmap Z bool) :
  normal_lbl ≠ [] →
  Aligner.align anomDetn normal_lbl.*1 = replicate (length normal_lbl) true →
  Aligner.align ∅ normal_lbl.*1 = replicate (length normal_lbl) true ∧
  windowing normal_lbl anomDetn
    = Ok (Segmenter.determine_events normal_lbl.*2,
          replicate (length normal_lbl) true,
          replicate (length normal_lbl) 0%Z,
          seqZ 1 (Segmenter.final_count (negb <$> normal_lbl.*2)), []) ∧
  (0%Z ∈ Segmenter.determine_events normal_lbl.*2 →
     evaluate_counts normal_lbl anomDetn
     = Ok (Metrics.Counts
             (Z.of_nat (length (filter (λ v, v ≠ 0%Z)
                          (Segmenter.determine_events normal_lbl.*2))))
             0 0
             (Metrics.value_count
                (Segmenter.determine_events normal_lbl.*2) 0))) ∧
  (0%Z ∉ Segmenter.determine_events normal_lbl.*2 →
     evaluate_counts normal_lbl anomDetn = Raise KeyError).
Proof.
  intros Hne Hall.
  split; [by rewrite align_empty, length_fmap|].
  split; [by apply windowing_all_flagged|].
  split; [intros H0; by apply counts_all_flagged|].
  intros H0. by apply evaluate_counts_no_zero.
Qed.

Lemma all_flagged_counts_witness :
  evaluate_counts (series [true; false; true; true]) ∅
  = Ok (Metrics.Counts
          (Z.of_nat (length (filter (λ v, v ≠ 0%Z)
             (Segmenter.determine_events
                (series [true; false; true; true]).*2))))
          0 0
          (Metrics.value_count
             (Segmenter.determine_events
                (series [true; false; true; true]).*2) 0)).
Proof.
  apply (all_flagged_counts (series [true; false; true; true]) ∅).
  - discriminate.
  - vm_compute. reflexivity.
  - apply (bool_decide_unpack _). vm_compute. exact I.
Defined.

(** ** Counts and ratios of a whole run *)

Section run_more.
Import Segmenter Matcher Classifier Aligner Metrics.

Lemma confusion_counts_split anomDetns anomDetn anomLbl detected invalid c :
  confusion_counts anomDetns anomDetn anomLbl detected invalid = Ok c →
  (TruePositives c + FalseNegatives c)%Z
    = (Z.of_nat (length anomDetn) - value_count anomLbl 0)%Z ∧
  (TrueNegatives c + FalsePositives c)%Z = value_count anomLbl 0.
Proof.
  unfold confusion_counts.
  destruct (vc_getitems anomLbl detected); simpl; [|done].
  unfold vc_getitem. case_decide; simpl; [|done].
  destruct (vc_getitems anomDetns invalid); simpl; [|done].
  intros [= <-]. simpl. lia.
Qed.

Lemma py_sum_pos (l : list Z) :
  l ≠ [] → Forall (λ v, 0 < v)%Z l → (0 < py_sum l)%Z.
Proof.
  intros Hne Hall. destruct Hall as [|x l Hx Hl]; [done|].
  rewrite py_sum_cons.
  assert (0 ≤ py_sum l)%Z; [|lia].
  apply py_sum_nonneg. eapply Forall_impl; [done|]. simpl. lia.
Qed.

Lemma counts_pos (s ids : list Z) :
  ids ≠ [] → Forall (λ v, v ∈ s) ids →
  (0 < py_sum (value_count s <$> ids))%Z.
Proof.
  intros Hne Hin. apply py_sum_pos; [by destruct ids|].
  apply Forall_fmap. eapply Forall_impl; [done|].
  simpl. intros v Hv. by apply value_count_pos.
Qed.

(** What [windowing] hands to [metrics], read back from its result. *)
Lemma windowing_result (normal_lbl : list (Z * bool)) (anomDetn : gmap Z bool)
    A F D detected invalid :
  windowing normal_lbl anomDetn = Ok (A, F, D, detected, invalid) →
  normal_lbl ≠ [] ∧
  A = determine_events normal_lbl.*2 ∧
  F = align anomDetn normal_lbl.*1 ∧
  D = determine_detections F ∧
  length A = length F ∧ length D = length F ∧
  Forall (λ v, v ∈ A) detected ∧ NoDup detected ∧ (0%Z ∉ detected) ∧
  Forall (λ v, v ∈ D) invalid ∧
  ∃ valid : list Z,
    match_from ([0%Z], [0%Z]) F A D = (0%Z :: detected, 0%Z :: valid) ∧
    false_detections D valid = Ok invalid ∧
    StronglySorted Z.lt valid ∧ Forall (λ v, 0 < v)%Z valid.
Proof.
  intros Hw.
  assert (normal_lbl ≠ []) as Hne by (by intros ->).
  destruct (windowing_ok normal_lbl anomDetn Hne)
    as (da & vd & inv & Hw' & Hmatch & Hinv & Hda & Nda & Hz & Hin & Hlen).
  rewrite Hw in Hw'. injection Hw' as -> -> -> -> ->.
  destruct (series_nonempty_lengths normal_lbl Hne) as [Hpos Hlen2].
  destruct (segment_lengths normal_lbl.*2 (align anomDetn normal_lbl.*1))
    as [HA HD]; [by rewrite align_length|by rewrite align_length|].
  repeat (split; [done|]).
  exists vd. split; [done|]. split; [done|].
  destruct (match_from_sorted (align anomDetn normal_lbl.*1)
              (determine_events normal_lbl.*2)
              (determine_detections (align anomDetn normal_lbl.*1))
              ([0%Z], [0%Z]) 0 0) as [_ S2];
    try (simpl; by repeat constructor).
  { rewrite determine_events_segment. apply segment_nz_mono. }
  { rewrite determine_detections_segment. apply segment_flag_mono. }
  rewrite Hmatch in S2. simpl in S2.
  by apply StronglySorted_cons in S2 as [? ?].
Qed.

Lemma evaluate_cases (normal_lbl : list (Z * bool)) (anomDetn : gmap Z bool)
    A F D detected invalid :
  windowing normal_lbl anomDetn = Ok (A, F, D, detected, invalid) →
  (0%Z ∉ A → evaluate normal_lbl anomDetn = Raise KeyError) ∧
  (0%Z ∈ A → detected = [] → invalid = [] →
     evaluate normal_lbl anomDetn = Raise ZeroDivisionError) ∧
  (0%Z ∈ A → detected ≠ [] ∨ invalid ≠ [] →
     ∃ (c : counts) (r : report),
       evaluate normal_lbl anomDetn = Ok (c, r) ∧
       evaluate_counts normal_lbl anomDetn = Ok c).
Proof.
  intros Hw.
  destruct (windowing_result _ _ _ _ _ _ _ Hw)
    as (Hne & _ & _ & _ & _ & _ & Hda & _ & _ & Hin & _).
  unfold evaluate, evaluate_counts. rewrite Hw. simpl.
  split; [|split].
  - intros H0. unfold metrics. by rewrite confusion_counts_no_zero.
  - intros H0 -> ->.
    pose proof (confusion_counts_ok D F A [] [] Hda H0 Hin) as Hc.
    by apply (metrics_after_counts _ _ _ _ _ _ Hc).
  - intros H0 Hsome.
    pose proof (confusion_counts_ok D F A detected invalid Hda H0 Hin) as Hc.
    destruct (metrics_after_counts _ _ _ _ _ _ Hc) as [_ Hok].
    destruct Hok as (r & Hr & _).
    + simpl. pose proof (counts_nonneg A detected).
      pose proof (counts_nonneg D invalid).
      destruct Hsome as [Hd|Hi].
      * pose proof (counts_pos A detected Hd Hda). lia.
      * pose proof (counts_pos D invalid Hi Hin). lia.
    + eexists _, r. by split.
Qed.

Lemma ratio_unit (a b : Z) :
  (0 ≤ a ≤ b)%Z → (0 < b)%Z →
  Qle 0 (inject_Z a / inject_Z b) ∧ Qle (inject_Z a / inject_Z b) 1.
Proof.
  intros Hab Hb.
  assert (Qlt 0 (inject_Z b)) as Hb'.
  { change 0%Q with (inject_Z 0). by rewrite <- Zlt_Qlt. }
  split.
  - apply Qle_shift_div_l; [done|]. rewrite Qmult_0_l.
    change 0%Q with (inject_Z 0). rewrite <- Zle_Qle. lia.
  - apply Qle_shift_div_r; [done|]. rewrite Qmult_1_l.
    rewrite <- Zle_Qle. lia.
Qed.

Lemma evaluate_ratios (normal_lbl : list (Z * bool)) (anomDetn : gmap Z bool)
    (c : counts) (r : report) :
  evaluate normal_lbl anomDetn = Ok (c, r) →
  evaluate_counts normal_lbl anomDetn = Ok c ∧
  (∃ p : Q, PRC r = Finite p ∧ Qle 0 p ∧ Qle p 1) ∧
  PPV r = PRC r ∧
  (RCL r = NaN ∨ ∃ q : Q, RCL r = Finite q ∧ Qle 0 q ∧ Qle q 1).
Proof.
  intros Hev.
  assert (evaluate_counts normal_lbl anomDetn = Ok c) as Hc.
  { unfold evaluate, evaluate_counts, metrics in *.
    destruct (windowing normal_lbl anomDetn) as [[[[[A F] D] da] inv]|];
      simpl in *; [|done].
    destruct (confusion_counts D F A da inv) as [c'|]; simpl in *; [|done].
    destruct (py_div _ _); simpl in *; [|done]. by injection Hev as -> _. }
  split; [done|].
  destruct (evaluate_counts_bounds _ _ _ Hc) as (HTP & HFN & HFP & _).
  unfold evaluate, evaluate_counts, metrics in *.
  destruct (windowing normal_lbl anomDetn) as [[[[[A F] D] da] inv]|];
    simpl in *; [|done].
  rewrite Hc in Hev. cbn [mbind result_bind mret result_ret] in Hev.
  unfold py_div in Hev. case_decide as Hz; [done|].
  cbn [mbind result_bind mret result_ret] in Hev.
  injection Hev as <-. cbn [PRC PPV RCL]. split; [|split; [done|]].
  - eexists. split; [done|]. apply ratio_unit; lia.
  - destruct (Qeq_bool (inject_Z (TruePositives c + FalseNegatives c)) 0)
      eqn:E.
    + apply inject_Z_zero in E. left.
      assert (TruePositives c = 0%Z) as -> by lia. done.
    + right. eexists. split; [done|].
      assert ((TruePositives c + FalseNegatives c)%Z ≠ 0%Z) as Hnz.
      { intros Hz'. apply inject_Z_zero in Hz'. congruence. }
      apply ratio_unit; lia.
Qed.

Lemma invalid_detection_unmatched (normal_lbl : list (Z * bool))
    (anomDetn : gmap Z bool) A F D detected invalid (k : Z) :
  windowing normal_lbl anomDetn = Ok (A, F, D, detected, invalid) →
  k ∈ invalid →
  (0 < k)%Z ∧ k ∈ D ∧
  ∀ i : nat, F !! i = Some true → D !! i = Some k → A !! i = Some 0%Z.
Proof.
  intros Hw Hk.
  destruct (windowing_result _ _ _ _ _ _ _ Hw)
    as (Hne & _ & _ & _ & HA & HD & _ & _ & _ & Hin & vd & Hmatch & Hinv
        & Svd & Pvd).
  assert (D ≠ []) as HDne.
  { intros ->. unfold false_detections in Hinv. done. }
  rewrite Forall_forall in Hin. pose proof (Hin k Hk) as HkD.
  destruct (py_max D) as [m|] eqn:Hm; [|by destruct D].
  rewrite (false_detections_sorted_valid D vd m Svd Pvd Hm) in Hinv.
  injection Hinv as <-.
  apply list_elem_of_filter in Hk as [[Hnv _] Hrange].
  apply elem_of_seqZ in Hrange.
  split; [lia|]. split; [done|].
  intros i Hf Hd.
  destruct (A !! i) as [a|] eqn:Ha.
  - destruct (decide (a = 0%Z)) as [->|Ha0]; [done|]. exfalso.
    destruct (match_from_elem F A D ([0%Z], [0%Z]) HA HD) as [_ M2].
    rewrite Hmatch in M2. simpl in M2.
    assert (k ∈ 0%Z :: vd) as Hin' by (apply M2; right; by exists i, a).
    apply elem_of_cons in Hin' as [->|?]; [lia|done].
  - apply lookup_lt_Some in Hf. apply lookup_ge_None in Ha. lia.
Qed.

Lemma evaluate_counts_split (normal_lbl : list (Z * bool))
    (anomDetn : gmap Z bool) (c : counts) :
  evaluate_counts normal_lbl anomDetn = Ok c →
  (TruePositives c + FalseNegatives c)%Z
    = Z.of_nat (length (filter (λ v, v ≠ 0%Z)
                               (determine_events normal_lbl.*2))) ∧
  (TrueNegatives c + FalsePositives c)%Z
    = value_count (determine_events normal_lbl.*2) 0.
Proof.
  intros Hc. unfold evaluate_counts in Hc.
  destruct (windowing normal_lbl anomDetn) as [[[[[A F] D] da] inv]|] eqn:Hw;
    simpl in Hc; [|done].
  destruct (windowing_result _ _ _ _ _ _ _ Hw)
    as (_ & -> & _ & _ & HA & _).
  destruct (confusion_counts_split _ _ _ _ _ _ Hc) as [H1 H2].
  rewrite <- HA, count_nonzero in H1. done.
Qed.

Lemma vc_getitems_missing (s ids : list Z) :
  ¬ Forall (λ v, v ∈ s) ids → vc_getitems s ids = Raise KeyError.
Proof.
  induction ids as [|v ids IH]; [by intros []|].
  intros Hnot. cbn [vc_getitems]. unfold vc_getitem at 1.
  case_decide as Hv; [|done]. simpl. rewrite IH; [done|].
  intros Hall. apply Hnot. by constructor.
Qed.

Lemma confusion_counts_cases anomDetns anomDetn anomLbl detected invalid :
  (Forall (λ v, v ∈ anomLbl) detected ∧ 0%Z ∈ anomLbl ∧
   Forall (λ v, v ∈ anomDetns) invalid →
     ∃ c, confusion_counts anomDetns anomDetn anomLbl detected invalid = Ok c ∧
          TruePositives c = py_sum (value_count anomLbl <$> detected) ∧
          FalsePositives c = py_sum (value_count anomDetns <$> invalid)) ∧
  (¬ (Forall (λ v, v ∈ anomLbl) detected ∧ 0%Z ∈ anomLbl ∧
      Forall (λ v, v ∈ anomDetns) invalid) →
     confusion_counts anomDetns anomDetn anomLbl detected invalid
       = Raise KeyError ∧
     metrics anomDetns anomDetn anomLbl detected invalid = Raise KeyError).
Proof.
  split.
  - intros (Hd & H0 & Hi). eexists. by rewrite confusion_counts_ok.
  - intros Hnot.
    assert (confusion_counts anomDetns anomDetn anomLbl detected invalid
            = Raise KeyError) as Hc.
    { destruct (decide (0%Z ∈ anomLbl)) as [H0|H0];
        [|by apply confusion_counts_no_zero].
      unfold confusion_counts.
      destruct (decide (Forall (λ v, v ∈ anomLbl) detected)) as [Hd|Hd];
        [|rewrite (vc_getitems_missing _ _ Hd); reflexivity].
      rewrite (vc_getitems_ok _ _ Hd). simpl.
      unfold vc_getitem. rewrite decide_True by done. simpl.
      rewrite vc_getitems_missing; [reflexivity|].
      intros Hi. by apply Hnot. }
    split; [done|]. unfold metrics. by rewrite Hc.
Qed.

Lemma unmatched_run (normal_lbl : list (Z * bool)) (anomDetn : gmap Z bool) :
  normal_lbl ≠ [] →
  (∀ i : nat, align anomDetn normal_lbl.*1 !! i = Some true →
              determine_events normal_lbl.*2 !! i = Some 0%Z) →
  windowing normal_lbl anomDetn
    = Ok (determine_events normal_lbl.*2, align anomDetn normal_lbl.*1,
          determine_detections (align anomDetn normal_lbl.*1), [], []) ∧
  (evaluate normal_lbl anomDetn = Raise KeyError ∨
   evaluate normal_lbl anomDetn = Raise ZeroDivisionError).
Proof.
  intros Hne Hmiss.
  destruct (windowing_ok normal_lbl anomDetn Hne)
    as (da & vd & inv & Hw & Hmatch & Hinv & _ & _ & _ & _ & Hlen).
  destruct (windowing_result _ _ _ _ _ _ _ Hw)
    as (_ & _ & _ & _ & HA & HD & _).
  destruct (match_from_elem _ _ _ ([0%Z], [0%Z]) HA HD) as [M1 M2].
  rewrite Hmatch in M1, M2. simpl in M1, M2.
  assert (da = []) as ->.
  { destruct da as [|x da]; [done|]. exfalso.
    assert (x ∈ 0%Z :: x :: da) as Hx by (right; by left).
    apply M1 in Hx as [Hx|(i & Hf & Ha & Hx0)].
    - apply list_elem_of_singleton in Hx as ->.
      assert (0%Z ∈ 0%Z :: 0%Z :: da) as H0 by by left.
      destruct (match_from_appended (align anomDetn normal_lbl.*1)
                  (determine_events normal_lbl.*2)
                  (determine_detections (align anomDetn normal_lbl.*1))
                  ([0%Z], [0%Z])) as (r1 & r2 & E & N1 & _).
      rewrite Hmatch in E. simpl in E. injection E as <- _.
      destruct (N1 0%Z) as [? _]; [by left|done].
    - rewrite (Hmiss i Hf) in Ha. by injection Ha as <-. }
  assert (vd = []) as ->.
  { destruct vd as [|y vd]; [done|]. exfalso.
    destruct (match_from_appended (align anomDetn normal_lbl.*1)
                (determine_events normal_lbl.*2)
                (determine_detections (align anomDetn normal_lbl.*1))
                ([0%Z], [0%Z])) as (r1 & r2 & E & _ & N2).
    rewrite Hmatch in E. simpl in E. injection E as _ <-.
    destruct (N2 y) as (i & a & Hf & Ha & Ha0 & _); [by left|].
    rewrite (Hmiss i Hf) in Ha. by injection Ha as <-. }
  rewrite false_detections_none_valid in Hinv.
  2:{ intros E. rewrite E in HD. symmetry in HD.
      apply length_zero_iff_nil in HD. rewrite HD in HA.
      apply length_zero_iff_nil in HA.
      pose proof (segment_length (negb <$> normal_lbl.*2)) as Hl.
      rewrite <- determine_events_segment, HA in Hl. simpl in Hl. lia. }
  injection Hinv as <-. split; [done|].
  destruct (evaluate_cases _ _ _ _ _ _ _ Hw) as (Hkey & Hzero & _).
  destruct (decide (0%Z ∈ determine_events normal_lbl.*2)) as [H0|H0].
  - right. by apply Hzero.
  - left. by apply Hkey.
Qed.

End run_more.

(** X15.  In a run the counts that are produced satisfy: true
    positives, false negatives and false positives are not negative,
    the four counts add up to the number of points, [TP + FN] is the
    number of points with a non-zero label event and [TN + FP] the
    number of points whose label event is 0. *)
Theorem run_counts (normal_lbl : list (Z * bool)) (anomDetn : gmap Z bool)
    (c : Metrics.counts) :
  evaluate_counts normal_lbl anomDetn = Ok c →
  (0 ≤ Metrics.TruePositives c)%Z ∧ (0 ≤ Metrics.FalseNegatives c)%Z ∧
  (0 ≤ Metrics.FalsePositives c)%Z ∧
  (Metrics.TruePositives c + Metrics.FalseNegatives c
   + Metrics.FalsePositives c + Metrics.TrueNegatives c)%Z
    = Z.of_nat (length normal_lbl) ∧
  (Metrics.TruePositives c + Metrics.FalseNegatives c)%Z
    = Z.of_nat (length (filter (λ v, v ≠ 0%Z)
                          (Segmenter.determine_events normal_lbl.*2))) ∧
  (Metrics.TrueNegatives c + Metrics.FalsePositives c)%Z
    = Metrics.value_count (Segmenter.determine_events normal_lbl.*2) 0.
Proof.
  intros Hc.
  destruct (evaluate_counts_bounds _ _ _ Hc) as (? & ? & ? & ?).
  destruct (evaluate_counts_split _ _ _ Hc) as [? ?]. done.
Qed.

Lemma run_counts_witness :
  (3 + 3 + 2 + -1)%Z
  = Z.of_nat (length (series [true; false; true; true; true; false; true])).
Proof.
  refine (proj1 (proj2 (proj2 (proj2
    (run_counts (series [true; false; true; true; true; false; true])
                (frame [false; false; false; true; false; true; false])
                (Metrics.Counts 3 3 2 (-1)) _))))).
  vm_compute. reflexivity.
Defined.

(** X16.  The confusion counts exist exactly when every key asked of
    [value_counts()] is present: each detected anomaly and 0 among the
    label events, each invalid detection among the detection events.
    A missing key raises [KeyError] from the counts and from
    [metrics].  No key is deduplicated: an identifier listed twice is
    summed twice. *)
Theorem confusion_counts_keys (anomDetns : list Z) (anomDetn : list bool)
    (anomLbl detected invalid : list Z) :
  (Forall (λ v, v ∈ anomLbl) detected ∧ 0%Z ∈ anomLbl ∧
   Forall (λ v, v ∈ anomDetns) invalid →
     ∃ c : Metrics.counts,
       Metrics.confusion_counts anomDetns anomDetn anomLbl detected invalid
         = Ok c ∧
       Metrics.TruePositives c
         = py_sum (Metrics.value_count anomLbl <$> detected) ∧
       Metrics.FalsePositives c
         = py_sum (Metrics.value_count anomDetns <$> invalid)) ∧
  (¬ (Forall (λ v, v ∈ anomLbl) detected ∧ 0%Z ∈ anomLbl ∧
      Forall (λ v, v ∈ anomDetns) invalid) →
     Metrics.confusion_counts anomDetns anomDetn anomLbl detected invalid
       = Raise KeyError ∧
     Metrics.metrics anomDetns anomDetn anomLbl detected invalid
       = Raise KeyError).
Proof. apply confusion_counts_cases. Qed.

Lemma confusion_counts_keys_witness :
  Metrics.metrics [0; 1; 1]%Z [false; true; true] [0; 1; 1]%Z [1%Z] [2%Z]
  = Raise KeyError.
Proof.
  refine (proj2 (proj2 (confusion_counts_keys
            [0; 1; 1]%Z [false; true; true] [0; 1; 1]%Z [1%Z] [2%Z]) _)).
  intros (_ & _ & Hinv). apply Forall_cons in Hinv as [Hin _].
  revert Hin. apply (bool_decide_unpack _). vm_compute. exact I.
Defined.

(** X17.  Outcome of the script's evaluation once [windowing] has
    returned: [KeyError] if no label event is 0; otherwise
    [ZeroDivisionError] if both the detected anomalies and the invalid
    detections are empty; otherwise a report is returned. *)
Theorem evaluate_outcome (normal_lbl : list (Z * bool))
    (anomDetn : gmap Z bool) (anomLbl : list Z) (aligned : list bool)
    (anomDetns detected invalid : list Z) :
  windowing normal_lbl anomDetn
    = Ok (anomLbl, aligned, anomDetns, detected, invalid) →
  (0%Z ∉ anomLbl → evaluate normal_lbl anomDetn = Raise KeyError) ∧
  (0%Z ∈ anomLbl → detected = [] → invalid = [] →
     evaluate normal_lbl anomDetn = Raise ZeroDivisionError) ∧
  (0%Z ∈ anomLbl → detected ≠ [] ∨ invalid ≠ [] →
     ∃ (c : Metrics.counts) (r : Metrics.report),
       evaluate normal_lbl anomDetn = Ok (c, r) ∧
       evaluate_counts normal_lbl anomDetn = Ok c).
Proof. apply evaluate_cases. Qed.

Lemma evaluate_outcome_witness :
  ∃ (c : Metrics.counts) (r : Metrics.report),
    evaluate (series [true; false; true; true])
             (frame [false; true; false; false]) = Ok (c, r) ∧
    evaluate_counts (series [true; false; true; true])
                    (frame [false; true; false; false]) = Ok c.
Proof.
  refine (proj2 (proj2 (evaluate_outcome
            (series [true; false; true; true])
            (frame [false; true; false; false])
            [1; 1; 1; 0]%Z [false; true; false; false] [1; 1; 1; 0]%Z
            [1%Z] [] _)) _ _).
  - vm_compute. reflexivity.
  - apply (bool_decide_unpack _). vm_compute. exact I.
  - left. discriminate.
Defined.

(** X18.  Whenever the evaluation returns a report, precision (and
    [PPV], the same value) lies between 0 and 1, and recall is either
    [nan] (no point with a non-zero label event) or lies between 0
    and 1. *)
Theorem evaluate_precision_recall (normal_lbl : list (Z * bool))
    (anomDetn : gmap Z bool) (c : Metrics.counts) (r : Metrics.report) :
  evaluate normal_lbl anomDetn = Ok (c, r) →
  evaluate_counts normal_lbl anomDetn = Ok c ∧
  (∃ p : Q, Metrics.PRC r = Metrics.Finite p ∧ Qle 0 p ∧ Qle p 1) ∧
  Metrics.PPV r = Metrics.PRC r ∧
  (Metrics.RCL r = Metrics.NaN ∨
   ∃ q : Q, Metrics.RCL r = Metrics.Finite q ∧ Qle 0 q ∧ Qle q 1).
Proof. apply evaluate_ratios. Qed.

Lemma evaluate_precision_recall_witness :
  ∃ r : Metrics.report,
    ∃ p : Q, Metrics.PRC r = Metrics.Finite p ∧ Qle 0 p ∧ Qle p 1.
Proof.
  eexists.
  refine (proj1 (proj2 (evaluate_precision_recall
            (series [true; false; true; true])
            (frame [false; true; false; false]) _ _ _))).
  vm_compute. reflexivity.
Defined.

(** X19.  Every identifier that a run reports as an invalid detection
    is a positive identifier of the detection events, and none of the
    flagged points of that detection event lies in a label event: the
    reported false alarms are genuine. *)
Theorem invalid_detections_genuine (normal_lbl : list (Z * bool))
    (anomDetn : gmap Z bool) (anomLbl : list Z) (aligned : list bool)
    (anomDetns detected invalid : list Z) (k : Z) :
  windowing normal_lbl anomDetn
    = Ok (anomLbl, aligned, anomDetns, detected, invalid) →
  k ∈ invalid →
  (0 < k)%Z ∧ k ∈ anomDetns ∧
  ∀ i : nat, aligned !! i = Some true → anomDetns !! i = Some k →
             anomLbl !! i = Some 0%Z.
Proof. apply invalid_detection_unmatched. Qed.

Lemma invalid_detections_genuine_witness :
  (0 < 1)%Z ∧ 1%Z ∈ [0; 0; 1; 1; 2; 2; 2]%Z ∧
  ∀ i : nat,
    [false; false; false; true; false; true; false] !! i = Some true →
    [0; 0; 1; 1; 2; 2; 2]%Z !! i = Some 1%Z →
    [1; 1; 1; 0; 2; 2; 2]%Z !! i = Some 0%Z.
Proof.
  apply (invalid_detections_genuine
           (series [true; false; true; true; true; false; true])
           (frame [false; false; false; true; false; true; false])
           [1; 1; 1; 0; 2; 2; 2]%Z
           [false; false; false; true; false; true; false]
           [0; 0; 1; 1; 2; 2; 2]%Z [2%Z] [1%Z] 1%Z).
  - vm_compute. reflexivity.
  - apply (bool_decide_unpack _). vm_compute. exact I.
Defined.

(** X20.  If no flagged point of the aligned detections lies in a
    label event, [windowing] returns no detected anomaly and also no
    invalid detection (the Classifier reports nothing when no
    detection is valid), and the evaluation then returns no report: it
    raises [KeyError] or [ZeroDivisionError]. *)
Theorem unmatched_detections_no_report (normal_lbl : list (Z * bool))
    (anomDetn : gmap Z bool) :
  normal_lbl ≠ [] →
  (∀ i : nat, Aligner.align anomDetn normal_lbl.*1 !! i = Some true →
              Segmenter.determine_events normal_lbl.*2 !! i = Some 0%Z) →
  windowing normal_lbl anomDetn
    = Ok (Segmenter.determine_events normal_lbl.*2,
          Aligner.align anomDetn normal_lbl.*1,
          Segmenter.determine_detections
            (Aligner.align anomDetn normal_lbl.*1), [], []) ∧
  (evaluate normal_lbl anomDetn = Raise KeyError ∨
   evaluate normal_lbl anomDetn = Raise ZeroDivisionError).
Proof. apply unmatched_run. Qed.

Lemma unmatched_detections_no_report_witness :
  windowing (series [true; true; true; true; false; true])
            (frame [false; true; false; false; false; false])
    = Ok (Segmenter.determine_events
            (series [true; true; true; true; false; true]).*2,
          Aligner.align (frame [false; true; false; false; false; false])
            (series [true; true; true; true; false; true]).*1,
          Segmenter.determine_detections
            (Aligner.align (frame [false; true; false; false; false; false])
               (series [true; true; true; true; false; true]).*1), [], []) ∧
  (evaluate (series [true; true; true; true; false; true])
            (frame [false; true; false; false; false; false])
     = Raise KeyError ∨
   evaluate (series [true; true; true; true; false; true])
            (frame [false; true; false; false; false; false])
     = Raise ZeroDivisionError).
Proof.
  apply (unmatched_detections_no_report
           (series [true; true; true; true; false; true])
           (frame [false; true; false; false; false; false])).
  - discriminate.
  - intros [|[|[|[|[|[|i]]]]]]; vm_compute; congruence.
Defined.
